(** * Guest socket services of the QEMU arm64 guest-services layer

    A shallow embedding of [hw/arm/guest-socket.c]: the descriptor table
    [fds], the error cell [qemu_errno], the allocator [find_free_socket],
    the helper [set_socket_non_blocking] and the seven [qc_handle_*]
    handlers, followed by the properties stated about them.

    The handlers talk to two collaborators outside [guest-socket.c]:
    the host operating system (socket, accept, bind, connect, listen, recv,
    send, fcntl, close) and the guest memory reached through
    [cpu_memory_rw_debug].  Both are represented by one environment
    function [world] that answers each call from the history of the calls
    made so far; every theorem holds for every such environment. *)

From Stdlib Require Import ZArith List Lia Bool.
From Stdlib.Strings Require Import Byte.
From stdpp Require Import base list.
Import ListNotations.

Local Open Scope Z_scope.

(** ** Machine integers *)

Definition INT_MIN : Z := - 2 ^ 31.
Definition INT_MAX : Z := 2 ^ 31 - 1.

(** Conversion to a 32-bit signed [int] (two's complement wrap-around). *)
Definition int32 (z : Z) : Z := Z.modulo (z + 2 ^ 31) (2 ^ 32) - 2 ^ 31.

(** Conversion to a 64-bit signed [ssize_t]. *)
Definition int64 (z : Z) : Z := Z.modulo (z + 2 ^ 63) (2 ^ 64) - 2 ^ 63.

Definition byte_of_Z (z : Z) : byte :=
  match Byte.of_N (Z.to_N (Z.modulo z 256)) with
  | Some b => b
  | None => x00
  end.

(** Little-endian image of an [n]-byte unsigned object. *)
Fixpoint le_bytes (n : nat) (z : Z) : list byte :=
  match n with
  | O => []
  | S n' => byte_of_Z z :: le_bytes n' (Z.shiftr z 8)
  end.

(** ** Constants supplied by headers

    [MAX_FD_COUNT] and [MAX_BUF_SIZE] come from the guest-services headers,
    the others from the host's system headers. *)

Class Platform := {
  MAX_FD_COUNT : Z;
  MAX_BUF_SIZE : Z;
  ENOMEM : Z;
  ENOTSOCK : Z;
  O_NONBLOCK : Z;
  sizeof_sockaddr_in : Z;
  sizeof_socklen_t : Z
}.

(** Sample values: the errno and fcntl constants and the structure sizes
    of a Linux host, with a table of 256 slots and a buffer of 4096
    bytes. *)
Definition linux : Platform := {|
  MAX_FD_COUNT := 256;
  MAX_BUF_SIZE := 4096;
  ENOMEM := 12;
  ENOTSOCK := 88;
  O_NONBLOCK := 2048;
  sizeof_sockaddr_in := 16;
  sizeof_socklen_t := 4
|}.

(** ** Calls to the host and to guest memory *)

Inductive Call : Type :=
| c_socket (domain type protocol : Z)
| c_accept (fd : Z)
| c_bind (fd : Z) (addr : list byte) (addrlen : Z)
| c_connect (fd : Z) (addr : list byte) (addrlen : Z)
| c_listen (fd backlog : Z)
| c_recv (fd length flags : Z)
| c_send (fd : Z) (buffer : list byte) (length flags : Z)
| c_fcntl_getfl (fd : Z)
| c_fcntl_setfl (fd flags : Z)
| c_close (fd : Z)
(* cpu_memory_rw_debug(cpu, addr, buf, len, 0): guest memory to host buffer *)
| c_mem_read (addr len : Z)
(* cpu_memory_rw_debug(cpu, addr, buf, len, 1): host buffer to guest memory *)
| c_mem_write (addr : Z) (buf : list byte) (len : Z)
(* a subscript of [fds] outside the array: what is read, and what the
   write lands on, belongs to whatever surrounds the array *)
| c_oob_load (index : Z)
| c_oob_store (index value : Z).

(** What the environment answers: the returned value, the [errno] it leaves
    when the call fails, the bytes it stores through a buffer argument and
    the value it stores through a length argument. *)
Record Reply : Type := mkReply {
  r_val : Z;
  r_errno : Z;
  r_data : list byte;
  r_len : Z
}.

(** A call together with the value it returned, as the C code sees it. *)
Inductive Event : Type :=
| Ev (c : Call) (ret : Z).

Definition ev_call (e : Event) : Call := match e with Ev c _ => c end.
Definition ev_ret (e : Event) : Z := match e with Ev _ r => r end.

Definition is_host_call (c : Call) : bool :=
  match c with
  | c_socket _ _ _ | c_accept _ | c_bind _ _ _ | c_connect _ _ _
  | c_listen _ _ | c_recv _ _ _ | c_send _ _ _ _
  | c_fcntl_getfl _ | c_fcntl_setfl _ _ | c_close _ => true
  | _ => false
  end.

Definition is_mem_copy (c : Call) : bool :=
  match c with
  | c_mem_read _ _ | c_mem_write _ _ _ => true
  | _ => false
  end.

Definition is_mem_write (c : Call) : bool :=
  match c with
  | c_mem_write _ _ _ => true
  | _ => false
  end.

Definition is_fcntl (c : Call) : bool :=
  match c with
  | c_fcntl_getfl _ | c_fcntl_setfl _ _ => true
  | _ => false
  end.

(** ** Program state *)

Record State : Type := mkState {
  fds : list Z;          (* int32_t fds[MAX_FD_COUNT]; -1 marks a free slot *)
  qemu_errno : Z;        (* the error cell read by the guest *)
  errno : Z;             (* the host's errno *)
  trace : list Event;    (* calls made so far, most recent first *)
  touched : list Z       (* subscripts applied to fds so far, most recent first *)
}.

Definition FREE : Z := -1.

Definition with_fds (t : list Z) (s : State) : State :=
  mkState t (qemu_errno s) (errno s) (trace s) (touched s).
Definition with_qemu_errno (e : Z) (s : State) : State :=
  mkState (fds s) e (errno s) (trace s) (touched s).
Definition with_errno (e : Z) (s : State) : State :=
  mkState (fds s) (qemu_errno s) e (trace s) (touched s).
Definition log (e : Event) (s : State) : State :=
  mkState (fds s) (qemu_errno s) (errno s) (e :: trace s) (touched s).
Definition touch (i : Z) (s : State) : State :=
  mkState (fds s) (qemu_errno s) (errno s) (trace s) (i :: touched s).

(** The table has the declared number of slots. *)
Definition wf `{Platform} (s : State) : Prop :=
  Z.of_nat (length (fds s)) = MAX_FD_COUNT.

(** Slot [i] of a table, for a subscript inside it. *)
Definition slot (t : list Z) (i : Z) : option Z :=
  if 0 <=? i then t !! Z.to_nat i else None.

(** The events of [s'] that were not yet in [s]. *)
Definition new_events (s s' : State) : list Event :=
  take (length (trace s') - length (trace s))%nat (trace s').

Definition new_touched (s s' : State) : list Z :=
  take (length (touched s') - length (touched s))%nat (touched s').

(** ** The state monad of the handlers *)

Definition M (A : Type) : Type := State -> A * State.

Definition ret {A} (a : A) : M A := fun s => (a, s).
Definition bind {A B} (m : M A) (k : A -> M B) : M B :=
  fun s => let (a, s1) := m s in k a s1.

Notation "x <- m ;; k" := (bind m (fun x => k))
  (at level 100, m at next level, right associativity).
Notation "m ;;; k" := (bind m (fun _ => k))
  (at level 100, right associativity).

Definition get_errno : M Z := fun s => (errno s, s).
Definition set_qemu_errno (e : Z) : M unit := fun s => (tt, with_qemu_errno e s).

Section GuestSocket.

Context `{P : Platform}.

(** The environment: given the calls made so far (most recent first) and
    the next call, the reply to it. *)
Variable world : list Event -> Call -> Reply.

(** *** Host primitives and guest memory *)

(** A host primitive returning [int].  [errno] is written when the call
    fails and is left alone otherwise. *)
Definition host_int (c : Call) : M Z := fun s =>
  let r := world (trace s) c in
  let v := int32 (r_val r) in
  let s1 := log (Ev c v) s in
  (v, if v <? 0 then with_errno (int32 (r_errno r)) s1 else s1).

(** A host primitive returning [ssize_t]. *)
Definition host_ssize (c : Call) : M (Z * list byte) := fun s =>
  let r := world (trace s) c in
  let v := int64 (r_val r) in
  let s1 := log (Ev c v) s in
  ((v, r_data r), if v <? 0 then with_errno (int32 (r_errno r)) s1 else s1).

(** [accept] also fills the address buffer and the length it is given. *)
Definition host_accept (fd : Z) : M (Z * list byte * Z) := fun s =>
  let r := world (trace s) (c_accept fd) in
  let v := int32 (r_val r) in
  let s1 := log (Ev (c_accept fd) v) s in
  ((v, r_data r, r_len r), if v <? 0 then with_errno (int32 (r_errno r)) s1 else s1).

(** [cpu_memory_rw_debug]; its result is ignored by every caller.  Reading
    yields the bytes the guest memory holds, writing hands over [buf]. *)
Definition cpu_memory_rw_debug_read (addr len : Z) : M (list byte) := fun s =>
  let r := world (trace s) (c_mem_read addr len) in
  (r_data r, log (Ev (c_mem_read addr len) (int32 (r_val r))) s).

Definition cpu_memory_rw_debug_write (addr : Z) (buf : list byte) (len : Z)
  : M unit := fun s =>
  let r := world (trace s) (c_mem_write addr buf len) in
  (tt, log (Ev (c_mem_write addr buf len) (int32 (r_val r))) s).

(** *** The descriptor table *)

(** [fds[i]] as an rvalue.  Every subscript is recorded in [touched]; one
    that falls outside the array reads what the environment says is there. *)
Definition fds_load (i : Z) : M Z := fun s =>
  let s1 := touch i s in
  match slot (fds s) i with
  | Some v => (v, s1)
  | None =>
      let r := world (trace s1) (c_oob_load i) in
      (int32 (r_val r), log (Ev (c_oob_load i) (int32 (r_val r))) s1)
  end.

(** [fds[i] = v].  A subscript outside the array leaves the table as it is
    and hands the write to the environment. *)
Definition fds_store (i v : Z) : M unit := fun s =>
  let s1 := touch i s in
  match slot (fds s) i with
  | Some _ => (tt, with_fds (<[Z.to_nat i := v]> (fds s)) s1)
  | None => (tt, log (Ev (c_oob_store i v) 0) s1)
  end.

(** *** find_free_socket *)

(** The loop [for (i = ...; i < MAX_FD_COUNT; ++i)] with [n] iterations
    left, followed by the code after it. *)
Fixpoint find_free_socket_from (n : nat) (i : Z) : M Z :=
  match n with
  | O =>
      set_qemu_errno ENOMEM ;;;
      ret (-1)
  | S n' =>
      v <- fds_load i ;;
      if -1 =? v then ret i
      else find_free_socket_from n' (i + 1)
  end.

Definition find_free_socket : M Z :=
  find_free_socket_from (Z.to_nat MAX_FD_COUNT) 0.

(** *** set_socket_non_blocking

    The two [perror] calls are left out: what they print is not
    modelled, and [errno] is taken to be still what the failing [fcntl]
    left when the caller reads it. *)
Definition set_socket_non_blocking (index : Z) : M Z :=
  fd <- fds_load index ;;
  flags <- host_int (c_fcntl_getfl fd) ;;
  if flags <? 0 then ret (-1)
  else
    fd <- fds_load index ;;
    r <- host_int (c_fcntl_setfl fd (Z.lor flags O_NONBLOCK)) ;;
    if r <? 0 then ret (-1)
    else ret index.

(** *** qc_handle_socket *)
Definition qc_handle_socket (domain type protocol : Z) : M Z :=
  retval <- find_free_socket ;;
  if retval <? 0 then
    set_qemu_errno ENOTSOCK ;;;
    ret retval
  else
    fd <- host_int (c_socket domain type protocol) ;;
    fds_store retval fd ;;;
    if fd <? 0 then
      e <- get_errno ;;
      set_qemu_errno e ;;;
      ret (-1)
    else
      retval <- set_socket_non_blocking retval ;;
      if retval <? 0 then
        e <- get_errno ;;
        set_qemu_errno e ;;;
        fd <- fds_load retval ;;
        _ <- host_int (c_close fd) ;;
        fds_store retval (-1) ;;;
        ret retval
      else ret retval.

(** Modelled from the spec: the macro [VERIFY_FD] of the header
    [hw/arm/guest-services/fds.h], which is not part of the sources at
    hand.  It checks [0 <= s < MAX_FD_COUNT] and that the slot is not free;
    when the check fails it reports the invalid-descriptor condition
    (ENOTSOCK) in the error cell and makes the handler return -1 without
    running the rest of its body. *)
Definition VERIFY_FD (s : Z) (body : M Z) : M Z :=
  if (s <? 0) || (MAX_FD_COUNT <=? s) then
    set_qemu_errno ENOTSOCK ;;;
    ret (-1)
  else
    v <- fds_load s ;;
    if -1 =? v then
      set_qemu_errno ENOTSOCK ;;;
      ret (-1)
    else body.

(** *** qc_handle_accept

    [addr] and [addrlen] are uninitialised locals; what [accept] leaves in
    them is what is copied to the guest. *)
Definition qc_handle_accept (sckt g_addr g_addrlen : Z) : M Z :=
  VERIFY_FD sckt (
    retval <- find_free_socket ;;
    if retval <? 0 then
      set_qemu_errno ENOTSOCK ;;;
      ret retval
    else
      lfd <- fds_load sckt ;;
      a <- host_accept lfd ;;
      let '(fd, addr, addrlen) := a in
      fds_store retval fd ;;;
      if fd <? 0 then
        e <- get_errno ;;
        set_qemu_errno e ;;;
        ret (-1)
      else
        retval <- set_socket_non_blocking retval ;;
        if retval <? 0 then
          e <- get_errno ;;
          set_qemu_errno e ;;;
          fds_store retval (-1) ;;;
          ret retval
        else
          cpu_memory_rw_debug_write g_addr addr sizeof_sockaddr_in ;;;
          cpu_memory_rw_debug_write g_addrlen
            (le_bytes (Z.to_nat sizeof_socklen_t) addrlen) sizeof_socklen_t ;;;
          ret retval).

(** *** qc_handle_bind and qc_handle_connect

    [addrlen] is a [socklen_t] and [sizeof(addr)] a [size_t]: the
    comparison is between non-negative numbers. *)
Definition qc_handle_bind (sckt g_addr addrlen : Z) : M Z :=
  VERIFY_FD sckt (
    if addrlen >? sizeof_sockaddr_in then
      set_qemu_errno ENOMEM ;;;
      ret 0
    else
      addr <- cpu_memory_rw_debug_read g_addr sizeof_sockaddr_in ;;
      fd <- fds_load sckt ;;
      retval <- host_int (c_bind fd addr addrlen) ;;
      if retval <? 0 then
        e <- get_errno ;;
        set_qemu_errno e ;;;
        ret retval
      else
        cpu_memory_rw_debug_write g_addr addr sizeof_sockaddr_in ;;;
        ret retval).

Definition qc_handle_connect (sckt g_addr addrlen : Z) : M Z :=
  VERIFY_FD sckt (
    if addrlen >? sizeof_sockaddr_in then
      set_qemu_errno ENOMEM ;;;
      ret 0
    else
      addr <- cpu_memory_rw_debug_read g_addr sizeof_sockaddr_in ;;
      fd <- fds_load sckt ;;
      retval <- host_int (c_connect fd addr addrlen) ;;
      if retval <? 0 then
        e <- get_errno ;;
        set_qemu_errno e ;;;
        ret retval
      else
        cpu_memory_rw_debug_write g_addr addr sizeof_sockaddr_in ;;;
        ret retval).

(** *** qc_handle_listen *)
Definition qc_handle_listen (sckt backlog : Z) : M Z :=
  VERIFY_FD sckt (
    fd <- fds_load sckt ;;
    retval <- host_int (c_listen fd backlog) ;;
    if retval <? 0 then
      e <- get_errno ;;
      set_qemu_errno e ;;;
      ret retval
    else ret retval).

(** *** qc_handle_recv and qc_handle_send

    [length] is a [size_t].  The host's [ssize_t] result is narrowed to the
    [int] variable [retval]. *)
Definition qc_handle_recv (sckt g_buffer length flags : Z) : M Z :=
  VERIFY_FD sckt (
    if length >? MAX_BUF_SIZE then
      set_qemu_errno ENOMEM ;;;
      ret (-1)
    else
      fd <- fds_load sckt ;;
      r <- host_ssize (c_recv fd length flags) ;;
      let retval := int32 (fst r) in
      if retval <=? 0 then
        e <- get_errno ;;
        set_qemu_errno e ;;;
        ret retval
      else
        cpu_memory_rw_debug_write g_buffer
          (take (Z.to_nat retval) (snd r)) retval ;;;
        ret retval).

Definition qc_handle_send (sckt g_buffer length flags : Z) : M Z :=
  VERIFY_FD sckt (
    if length >? MAX_BUF_SIZE then
      set_qemu_errno ENOMEM ;;;
      ret (-1)
    else
      buffer <- cpu_memory_rw_debug_read g_buffer length ;;
      fd <- fds_load sckt ;;
      r <- host_ssize (c_send fd buffer length flags) ;;
      let retval := int32 (fst r) in
      if retval <? 0 then
        e <- get_errno ;;
        set_qemu_errno e ;;;
        ret retval
      else ret retval).

End GuestSocket.

(** * Vocabulary of the properties *)

(** [lowest_free t i]: slot [i] is free and no slot below it is. *)
Definition lowest_free (t : list Z) (i : Z) : Prop :=
  slot t i = Some FREE /\ forall j, 0 <= j < i -> slot t j <> Some FREE.

(** [full t]: no slot of the table is free. *)
Definition full (t : list Z) : Prop :=
  forall j, slot t j <> Some FREE.

(** The subscripts [i, i+1, ..., i+k-1]. *)
Fixpoint Zrange (i : Z) (k : nat) : list Z :=
  match k with
  | O => []
  | S k' => i :: Zrange (i + 1) k'
  end.

(** The state after subscripting the table with each element of [l],
    the last element of [l] first. *)
Definition touches (l : list Z) (s : State) : State :=
  mkState (fds s) (qemu_errno s) (errno s) (trace s) (l ++ touched s).

(** The state left by a scan that stopped at slot [i]. *)
Definition scanned (i : Z) (s : State) : State :=
  touches (rev (Zrange 0 (Z.to_nat (i + 1)))) s.

(** A handle the gate lets through: inside the table, on an owned slot. *)
Definition valid_fd (s : State) (sckt : Z) : Prop :=
  exists fd, slot (fds s) sckt = Some fd /\ fd <> FREE.

(** A handle the gate turns away: outside [0, MAX_FD_COUNT), or on a free
    slot. *)
Definition invalid_fd `{Platform} (s : State) (sckt : Z) : Prop :=
  sckt < 0 \/ MAX_FD_COUNT <= sckt \/ slot (fds s) sckt = Some FREE.

(** Non-blocking setup failed: some [fcntl] among the events returned a
    negative value. *)
Definition setup_failed (evs : list Event) : bool :=
  existsb (fun e => is_fcntl (ev_call e) && (ev_ret e <? 0)) evs.

(** Every subscript of the list is inside the array. *)
Definition in_bounds `{Platform} (l : list Z) : Prop :=
  Forall (fun k => 0 <= k < MAX_FD_COUNT) l.

(** [quiet out r e s]: the run [out] started in [s] returned [r] with [e]
    in the error cell, made no call to the host or to guest memory, and
    left the table and the host's errno alone. *)
Definition quiet (out : Z * State) (r e : Z) (s : State) : Prop :=
  fst out = r /\ qemu_errno (snd out) = e /\ fds (snd out) = fds s
  /\ errno (snd out) = errno s /\ trace (snd out) = trace s.

(** Modelled from the spec: the release operation of the descriptor
    table, [release(handle)], which belongs to the part of the guest
    services that closes descriptors and is not in [guest-socket.c].  It
    sets the slot back to FREE and does nothing else. *)
Definition release (h : Z) (s : State) : State :=
  with_fds (<[Z.to_nat h := FREE]> (fds s)) s.

(** The host calls made while a descriptor is set up. *)
Definition is_setup_call (c : Call) : bool :=
  match c with
  | c_socket _ _ _ | c_accept _ | c_fcntl_getfl _ | c_fcntl_setfl _ _ => true
  | _ => false
  end.

(** A host on which no such call fails. *)
Definition cooperative (world : list Event -> Call -> Reply) : Prop :=
  forall h c, is_setup_call c = true -> 0 <= int32 (r_val (world h c)).

Section Runs.

Context `{P : Platform}.
Variable world : list Event -> Call -> Reply.

(** The code run once non-blocking setup has failed in [qc_handle_socket]:
    [retval] is -1 by then, so both subscripts are -1. *)
Definition socket_cleanup : M Z :=
  e <- get_errno ;;
  set_qemu_errno e ;;;
  fd <- fds_load world (-1) ;;
  _ <- host_int world (c_close fd) ;;
  fds_store (-1) (-1) ;;;
  ret (-1).

(** The same place in [qc_handle_accept]. *)
Definition accept_cleanup : M Z :=
  e <- get_errno ;;
  set_qemu_errno e ;;;
  fds_store (-1) (-1) ;;;
  ret (-1).

(** The four ways through [qc_handle_socket]: no free slot, [socket]
    failed, non-blocking setup failed, success.  [r] and [s'] are the
    value returned and the state left. *)
Inductive create_path (s : State) (domain type protocol r : Z) (s' : State)
  : Prop :=
| create_exhausted :
    full (fds s) -> r = -1 ->
    fds s' = fds s -> trace s' = trace s ->
    qemu_errno s' = ENOTSOCK ->
    in_bounds (new_touched s s') ->
    create_path s domain type protocol r s'
| create_host_failed (i fd : Z) :
    lowest_free (fds s) i ->
    fd = int32 (r_val (world (trace s) (c_socket domain type protocol))) ->
    fd < 0 -> r = -1 ->
    fds s' = <[Z.to_nat i := fd]> (fds s) ->
    trace s' = [Ev (c_socket domain type protocol) fd] ++ trace s ->
    qemu_errno s' = errno s' ->
    in_bounds (new_touched s s') ->
    create_path s domain type protocol r s'
| create_setup_failed (i fd : Z) (evs : list Event) :
    lowest_free (fds s) i ->
    fd = int32 (r_val (world (trace s) (c_socket domain type protocol))) ->
    0 <= fd -> r = -1 ->
    fds s' = <[Z.to_nat i := fd]> (fds s) ->
    trace s' = (evs ++ [Ev (c_socket domain type protocol) fd]) ++ trace s ->
    setup_failed evs = true ->
    In (-1) (new_touched s s') ->
    create_path s domain type protocol r s'
| create_ok (i fd flags ok : Z) :
    lowest_free (fds s) i ->
    fd = int32 (r_val (world (trace s) (c_socket domain type protocol))) ->
    0 <= fd -> 0 <= flags -> 0 <= ok -> r = i ->
    fds s' = <[Z.to_nat i := fd]> (fds s) ->
    trace s' = [Ev (c_fcntl_setfl fd (Z.lor flags O_NONBLOCK)) ok;
                Ev (c_fcntl_getfl fd) flags;
                Ev (c_socket domain type protocol) fd] ++ trace s ->
    qemu_errno s' = qemu_errno s ->
    in_bounds (new_touched s s') ->
    create_path s domain type protocol r s'.

(** The five ways through [qc_handle_accept]: handle turned away, no
    free slot, [accept] failed, non-blocking setup failed, success. *)
Inductive accept_path (s : State) (sckt g_addr g_addrlen r : Z) (s' : State)
  : Prop :=
| accept_rejected :
    invalid_fd s sckt -> r = -1 ->
    fds s' = fds s -> trace s' = trace s ->
    qemu_errno s' = ENOTSOCK ->
    in_bounds (new_touched s s') ->
    accept_path s sckt g_addr g_addrlen r s'
| accept_exhausted :
    valid_fd s sckt -> full (fds s) -> r = -1 ->
    fds s' = fds s -> trace s' = trace s ->
    qemu_errno s' = ENOTSOCK ->
    in_bounds (new_touched s s') ->
    accept_path s sckt g_addr g_addrlen r s'
| accept_host_failed (lfd i fd : Z) :
    slot (fds s) sckt = Some lfd -> lfd <> FREE ->
    lowest_free (fds s) i ->
    fd = int32 (r_val (world (trace s) (c_accept lfd))) ->
    fd < 0 -> r = -1 ->
    fds s' = <[Z.to_nat i := fd]> (fds s) ->
    trace s' = [Ev (c_accept lfd) fd] ++ trace s ->
    qemu_errno s' = errno s' ->
    in_bounds (new_touched s s') ->
    accept_path s sckt g_addr g_addrlen r s'
| accept_setup_failed (lfd i fd : Z) (evs : list Event) :
    slot (fds s) sckt = Some lfd -> lfd <> FREE ->
    lowest_free (fds s) i ->
    fd = int32 (r_val (world (trace s) (c_accept lfd))) ->
    0 <= fd -> r = -1 ->
    fds s' = <[Z.to_nat i := fd]> (fds s) ->
    trace s' = (evs ++ [Ev (c_accept lfd) fd]) ++ trace s ->
    setup_failed evs = true ->
    forallb (fun e => negb (is_mem_copy (ev_call e))) evs = true ->
    In (-1) (new_touched s s') ->
    accept_path s sckt g_addr g_addrlen r s'
| accept_ok (lfd i fd flags ok a1 a2 : Z) (addr lenb : list byte) :
    slot (fds s) sckt = Some lfd -> lfd <> FREE ->
    lowest_free (fds s) i ->
    fd = int32 (r_val (world (trace s) (c_accept lfd))) ->
    0 <= fd -> 0 <= flags -> 0 <= ok -> r = i ->
    fds s' = <[Z.to_nat i := fd]> (fds s) ->
    trace s' = [Ev (c_mem_write g_addrlen lenb sizeof_socklen_t) a2;
                Ev (c_mem_write g_addr addr sizeof_sockaddr_in) a1;
                Ev (c_fcntl_setfl fd (Z.lor flags O_NONBLOCK)) ok;
                Ev (c_fcntl_getfl fd) flags;
                Ev (c_accept lfd) fd] ++ trace s ->
    qemu_errno s' = qemu_errno s ->
    in_bounds (new_touched s s') ->
    accept_path s sckt g_addr g_addrlen r s'.

(** The four ways through [qc_handle_recv]: handle turned away, oversize
    length, nothing received, bytes delivered. *)
Inductive recv_path (s : State) (sckt g_buffer length flags r : Z) (s' : State)
  : Prop :=
| recv_rejected :
    invalid_fd s sckt -> r = -1 ->
    fds s' = fds s -> trace s' = trace s ->
    qemu_errno s' = ENOTSOCK ->
    recv_path s sckt g_buffer length flags r s'
| recv_oversize :
    valid_fd s sckt -> MAX_BUF_SIZE < length -> r = -1 ->
    fds s' = fds s -> trace s' = trace s ->
    qemu_errno s' = ENOMEM ->
    recv_path s sckt g_buffer length flags r s'
| recv_nothing (fd n : Z) :
    slot (fds s) sckt = Some fd -> fd <> FREE -> length <= MAX_BUF_SIZE ->
    n = int64 (r_val (world (trace s) (c_recv fd length flags))) ->
    r = int32 n -> r <= 0 ->
    fds s' = fds s ->
    trace s' = [Ev (c_recv fd length flags) n] ++ trace s ->
    qemu_errno s' = errno s' ->
    (n < 0 ->
     errno s' = int32 (r_errno (world (trace s) (c_recv fd length flags)))) ->
    (0 <= n -> errno s' = errno s) ->
    recv_path s sckt g_buffer length flags r s'
| recv_delivered (fd n ack : Z) :
    slot (fds s) sckt = Some fd -> fd <> FREE -> length <= MAX_BUF_SIZE ->
    n = int64 (r_val (world (trace s) (c_recv fd length flags))) ->
    r = int32 n -> 0 < r ->
    fds s' = fds s ->
    trace s' =
      [Ev (c_mem_write g_buffer
             (take (Z.to_nat r)
                (r_data (world (trace s) (c_recv fd length flags)))) r) ack;
       Ev (c_recv fd length flags) n] ++ trace s ->
    qemu_errno s' = qemu_errno s ->
    recv_path s sckt g_buffer length flags r s'.

(** [n] calls of create in a row: the handles returned, in order, and the
    final state. *)
Fixpoint creates (domain type protocol : Z) (n : nat) (s : State)
  : list Z * State :=
  match n with
  | O => ([], s)
  | S n' =>
      let (r, s1) := qc_handle_socket world domain type protocol s in
      let (rs, s2) := creates domain type protocol n' s1 in
      (r :: rs, s2)
  end.

End Runs.

(** ** Runs of any handler *)

Section AnyHandler.

Context `{P : Platform}.
Variable world : list Event -> Call -> Reply.

(** One call of one of the seven handlers, whatever its arguments: [r] is
    the value returned and [s'] the state left. *)
Inductive handler_run (s : State) (r : Z) (s' : State) : Prop :=
| run_socket (domain type protocol : Z) :
    qc_handle_socket world domain type protocol s = (r, s') ->
    handler_run s r s'
| run_accept (sckt g_addr g_addrlen : Z) :
    qc_handle_accept world sckt g_addr g_addrlen s = (r, s') ->
    handler_run s r s'
| run_bind (sckt g_addr addrlen : Z) :
    qc_handle_bind world sckt g_addr addrlen s = (r, s') ->
    handler_run s r s'
| run_connect (sckt g_addr addrlen : Z) :
    qc_handle_connect world sckt g_addr addrlen s = (r, s') ->
    handler_run s r s'
| run_listen (sckt backlog : Z) :
    qc_handle_listen world sckt backlog s = (r, s') ->
    handler_run s r s'
| run_recv (sckt g_buffer length flags : Z) :
    qc_handle_recv world sckt g_buffer length flags s = (r, s') ->
    handler_run s r s'
| run_send (sckt g_buffer length flags : Z) :
    qc_handle_send world sckt g_buffer length flags s = (r, s') ->
    handler_run s r s'.

(** Any number of handler calls, one after the other. *)
Inductive handler_runs : State -> State -> Prop :=
| runs_done (s : State) : handler_runs s s
| runs_step (s s1 s2 : State) (r : Z) :
    handler_run s r s1 -> handler_runs s1 s2 -> handler_runs s s2.

End AnyHandler.

(** A host on which [socket] succeeds and [fcntl(F_GETFL)] fails. *)
Definition no_getfl (world : list Event -> Call -> Reply) : Prop :=
  forall h,
    (forall domain type protocol,
       0 <= int32 (r_val (world h (c_socket domain type protocol))))
    /\ (forall fd, int32 (r_val (world h (c_fcntl_getfl fd))) < 0).

(** No event of the list is a copy from or to guest memory. *)
Definition no_mem_copy (evs : list Event) : bool :=
  forallb (fun e => negb (is_mem_copy (ev_call e))) evs.

(** No event of the list is a write to guest memory. *)
Definition no_mem_write (evs : list Event) : bool :=
  forallb (fun e => negb (is_mem_write (ev_call e))) evs.

(** ** Sample environments and states *)

Definition reply (v : Z) : Reply := mkReply v 0 [] 0.
Definition failure (e : Z) : Reply := mkReply (-1) e [] 0.

(** The table with every slot free. *)
Definition init `{Platform} : State :=
  mkState (replicate (Z.to_nat MAX_FD_COUNT) FREE) 0 0 [] [].

(** A table with no slot free. *)
Definition crowded `{Platform} : State :=
  mkState (replicate (Z.to_nat MAX_FD_COUNT) 7) 0 0 [] [].

(** A host on which every call succeeds: [socket] and [accept] hand out
    fresh descriptors, [recv] delivers up to four bytes, [send] takes all. *)
Definition host_ok (h : list Event) (c : Call) : Reply :=
  match c with
  | c_socket _ _ _ | c_accept _ =>
      reply (3 + Z.modulo (Z.of_nat (length h)) 1024)
  | c_recv _ len _ => mkReply (Z.min len 4) 0 [x68; x6f; x73; x74] 0
  | c_send _ _ len _ => reply len
  | _ => reply 0
  end.

(** A host whose [fcntl] fails with EBADF (9); everything else succeeds. *)
Definition host_no_fcntl (h : list Event) (c : Call) : Reply :=
  match c with
  | c_fcntl_getfl _ | c_fcntl_setfl _ _ => failure 9
  | _ => host_ok h c
  end.

(** A host whose peer has shut the connection down: [recv] returns 0. *)
Definition host_eof (h : list Event) (c : Call) : Reply :=
  match c with
  | c_recv _ _ _ => reply 0
  | _ => host_ok h c
  end.

(** A host out of descriptors: [socket] and [accept] fail with EMFILE
    (24). *)
Definition host_down (h : list Event) (c : Call) : Reply :=
  match c with
  | c_socket _ _ _ | c_accept _ => failure 24
  | _ => host_ok h c
  end.

(** A table whose slot 0 holds host descriptor 3, the others free. *)
Definition one_socket `{Platform} : State :=
  mkState (3 :: replicate (Z.to_nat MAX_FD_COUNT - 1) FREE) 0 0 [] [].

(** * Properties *)

#[local] Arguments Z.eqb : simpl never.
#[local] Arguments Z.ltb : simpl never.
#[local] Arguments Z.leb : simpl never.
#[local] Arguments Z.gtb : simpl never.
#[local] Arguments Z.lor : simpl never.
#[local] Arguments Z.to_nat : simpl never.
#[local] Arguments Z.add : simpl never.
#[local] Arguments Z.sub : simpl never.
#[local] Arguments int32 : simpl never.
#[local] Arguments int64 : simpl never.
#[local] Arguments host_int : simpl never.
#[local] Arguments host_ssize : simpl never.
#[local] Arguments host_accept : simpl never.
#[local] Arguments cpu_memory_rw_debug_read : simpl never.
#[local] Arguments cpu_memory_rw_debug_write : simpl never.
#[local] Arguments fds_load : simpl never.
#[local] Arguments fds_store : simpl never.

(** ** Integers and table slots *)

Lemma int32_id (z : Z) : INT_MIN <= z <= INT_MAX -> int32 z = z.
Proof.
  unfold int32, INT_MIN, INT_MAX. intros Hz.
  rewrite Z.mod_small; lia.
Qed.

Lemma lor_keeps_bits (a b : Z) : Z.land (Z.lor a b) b = b.
Proof.
  apply Z.bits_inj'. intros n _.
  rewrite Z.land_spec, Z.lor_spec.
  destruct (Z.testbit a n), (Z.testbit b n); reflexivity.
Qed.

Lemma slot_range (t : list Z) (i v : Z) :
  slot t i = Some v -> 0 <= i < Z.of_nat (length t).
Proof.
  unfold slot. destruct (Z.leb_spec 0 i) as [Hi|Hi]; [|discriminate].
  intros Hl. apply lookup_lt_Some in Hl. lia.
Qed.

Lemma slot_in_range (t : list Z) (i : Z) :
  0 <= i < Z.of_nat (length t) -> exists v, slot t i = Some v.
Proof.
  intros Hi. unfold slot.
  destruct (Z.leb_spec 0 i); [|lia].
  destruct (lookup_lt_is_Some_2 t (Z.to_nat i)) as [v Hv]; [lia|].
  exists v. exact Hv.
Qed.

Lemma slot_negative (t : list Z) (i : Z) : i < 0 -> slot t i = None.
Proof.
  intros Hi. unfold slot. destruct (Z.leb_spec 0 i); [lia|reflexivity].
Qed.

Lemma slot_insert_eq (t : list Z) (i v w : Z) :
  slot t i = Some v -> slot (<[Z.to_nat i := w]> t) i = Some w.
Proof.
  intros Hs. pose proof (slot_range _ _ _ Hs) as Hr.
  unfold slot. destruct (Z.leb_spec 0 i); [|lia].
  apply list_lookup_insert_eq. lia.
Qed.

Lemma slot_insert_ne (t : list Z) (i j w : Z) :
  0 <= i -> i <> j -> slot (<[Z.to_nat i := w]> t) j = slot t j.
Proof.
  intros Hi Hne. unfold slot.
  destruct (Z.leb_spec 0 j); [|reflexivity].
  apply list_lookup_insert_ne. lia.
Qed.

(** ** Reading the logs *)

Lemma new_events_app (s s' : State) (evs : list Event) :
  trace s' = evs ++ trace s -> new_events s s' = evs.
Proof.
  intros Ht. unfold new_events. rewrite Ht, length_app.
  replace (length evs + length (trace s) - length (trace s))%nat
    with (length evs) by lia.
  apply take_app_length.
Qed.

Lemma new_touched_app (s s' : State) (l : list Z) :
  touched s' = l ++ touched s -> new_touched s s' = l.
Proof.
  intros Ht. unfold new_touched. rewrite Ht, length_app.
  replace (length l + length (touched s) - length (touched s))%nat
    with (length l) by lia.
  apply take_app_length.
Qed.

(** ** The scan of find_free_socket *)

Lemma touches_touch (l : list Z) (i : Z) (s : State) :
  touches l (touch i s) = touches (l ++ [i]) s.
Proof.
  unfold touches, touch. simpl. rewrite <- app_assoc. reflexivity.
Qed.

Lemma Zrange_bounds (i : Z) (k : nat) (x : Z) :
  In x (Zrange i k) -> i <= x < i + Z.of_nat k.
Proof.
  revert i. induction k as [|k IH]; simpl; intros i Hx; [contradiction|].
  destruct Hx as [<-|Hx]; [lia|]. apply IH in Hx. lia.
Qed.

Lemma lowest_free_unique (t : list Z) (i j : Z) :
  lowest_free t i -> lowest_free t j -> i = j.
Proof.
  intros [Hi Hlo_i] [Hj Hlo_j].
  pose proof (slot_range _ _ _ Hi). pose proof (slot_range _ _ _ Hj).
  destruct (Z.lt_trichotomy i j) as [Hlt|[Heq|Hgt]]; [|exact Heq|].
  - exfalso. apply (Hlo_j i); [lia|exact Hi].
  - exfalso. apply (Hlo_i j); [lia|exact Hj].
Qed.

Lemma lowest_free_not_full (t : list Z) (i : Z) :
  lowest_free t i -> full t -> False.
Proof. intros [Hi _] Hf. exact (Hf i Hi). Qed.

(** Every table either has a lowest free slot or is full. *)
Lemma lowest_free_or_full (t : list Z) :
  (exists i, lowest_free t i) \/ full t.
Proof.
  assert (Hgen : forall n : nat,
    (exists i, lowest_free t i) \/
    (forall j, 0 <= j < Z.of_nat n -> slot t j <> Some FREE)).
  { induction n as [|n IH].
    - right. intros j Hj. lia.
    - destruct IH as [Hex|Hnone]; [left; exact Hex|].
      destruct (slot t (Z.of_nat n)) as [v|] eqn:Hs.
      + destruct (Z.eq_dec v FREE) as [->|Hv].
        * left. exists (Z.of_nat n). split; [exact Hs|exact Hnone].
        * right. intros j Hj.
          destruct (Z.eq_dec j (Z.of_nat n)) as [->|Hne].
          -- rewrite Hs. congruence.
          -- apply Hnone. lia.
      + right. intros j Hj.
        destruct (Z.eq_dec j (Z.of_nat n)) as [->|Hne].
        * rewrite Hs. discriminate.
        * apply Hnone. lia. }
  destruct (Hgen (length t)) as [Hex|Hnone]; [left; exact Hex|].
  right. intros j Hj. pose proof (slot_range _ _ _ Hj). apply (Hnone j); [lia|exact Hj].
Qed.

Section Scan.

Context `{P : Platform}.
Variable world : list Event -> Call -> Reply.

Lemma find_free_socket_from_found (n : nat) (i r : Z) (s : State) :
  0 <= i <= r -> r < i + Z.of_nat n ->
  slot (fds s) r = Some FREE ->
  (forall j, i <= j < r -> slot (fds s) j <> Some FREE) ->
  find_free_socket_from world n i s
  = (r, touches (rev (Zrange i (Z.to_nat (r - i + 1)))) s).
Proof.
  revert i s. induction n as [|n IH]; intros i s Hir Hn Hr Hlow; [lia|].
  simpl. unfold bind, fds_load.
  destruct (Z.eq_dec i r) as [->|Hne].
  - rewrite Hr. unfold FREE. rewrite Z.eqb_refl.
    replace (r - r + 1) with 1 by lia. reflexivity.
  - destruct (slot_in_range (fds s) i) as [v Hv].
    { pose proof (slot_range _ _ _ Hr). lia. }
    rewrite Hv.
    destruct (Z.eqb_spec (-1) v) as [<-|Hv1].
    { exfalso. apply (Hlow i); [lia|exact Hv]. }
    rewrite (IH (i + 1) (touch i s)); simpl; try lia; try assumption.
    + rewrite touches_touch. f_equal. f_equal.
      replace (Z.to_nat (r - i + 1)) with (S (Z.to_nat (r - (i + 1) + 1))) by lia.
      reflexivity.
    + intros j Hj. apply Hlow. lia.
Qed.

Lemma find_free_socket_from_none (n : nat) (i : Z) (s : State) :
  0 <= i -> i + Z.of_nat n <= Z.of_nat (length (fds s)) ->
  (forall j, i <= j < i + Z.of_nat n -> slot (fds s) j <> Some FREE) ->
  find_free_socket_from world n i s
  = (-1, with_qemu_errno ENOMEM (touches (rev (Zrange i n)) s)).
Proof.
  revert i s. induction n as [|n IH]; intros i s Hi Hlen Hnone.
  - reflexivity.
  - simpl. unfold bind at 1. unfold fds_load.
    destruct (slot_in_range (fds s) i) as [v Hv]; [lia|].
    rewrite Hv.
    destruct (Z.eqb_spec (-1) v) as [<-|Hv1].
    { exfalso. apply (Hnone i); [lia|exact Hv]. }
    rewrite (IH (i + 1) (touch i s)); simpl; try lia.
    + rewrite touches_touch. reflexivity.
    + intros j Hj. apply Hnone. lia.
Qed.

(** The allocator on a table with a free slot: the lowest free subscript
    is returned after reading slots [0..r]; nothing else changes. *)
Lemma find_free_socket_found (s : State) (r : Z) :
  wf s -> lowest_free (fds s) r ->
  find_free_socket world s
  = (r, touches (rev (Zrange 0 (Z.to_nat (r + 1)))) s).
Proof.
  intros Hwf [Hr Hlow]. unfold find_free_socket.
  pose proof (slot_range _ _ _ Hr) as Hrange. unfold wf in Hwf.
  rewrite (find_free_socket_from_found _ 0 r); try assumption; try lia.
  replace (r - 0 + 1) with (r + 1) by lia. reflexivity.
Qed.

(** The allocator on a full table: -1 is returned with ENOMEM in the
    error cell after reading every slot. *)
Lemma find_free_socket_full (s : State) :
  wf s -> full (fds s) ->
  find_free_socket world s
  = (-1, with_qemu_errno ENOMEM
           (touches (rev (Zrange 0 (Z.to_nat MAX_FD_COUNT))) s)).
Proof.
  intros Hwf Hfull. unfold find_free_socket. unfold wf in Hwf.
  apply find_free_socket_from_none; try lia.
  intros j _. apply Hfull.
Qed.

End Scan.

(** ** Handles and the verify gate *)

Section Primitives.

Context `{P : Platform}.
Variable world : list Event -> Call -> Reply.

Lemma fds_load_in (i v : Z) (s : State) :
  slot (fds s) i = Some v -> fds_load world i s = (v, touch i s).
Proof. intros Hs. unfold fds_load. rewrite Hs. reflexivity. Qed.

Lemma fds_store_in (i v w : Z) (s : State) :
  slot (fds s) i = Some v ->
  fds_store i w s = (tt, with_fds (<[Z.to_nat i := w]> (fds s)) (touch i s)).
Proof. intros Hs. unfold fds_store. rewrite Hs. reflexivity. Qed.

Lemma fds_store_out (i w : Z) (s : State) :
  slot (fds s) i = None ->
  fds_store i w s = (tt, log (Ev (c_oob_store i w) 0) (touch i s)).
Proof. intros Hs. unfold fds_store. rewrite Hs. reflexivity. Qed.

Lemma VERIFY_FD_invalid (sckt : Z) (body : M Z) (s : State) :
  wf s -> invalid_fd s sckt ->
  exists s', VERIFY_FD world sckt body s = (-1, s')
    /\ qemu_errno s' = ENOTSOCK /\ fds s' = fds s /\ errno s' = errno s
    /\ trace s' = trace s /\ in_bounds (new_touched s s').
Proof.
  intros Hwf Hinv. unfold VERIFY_FD.
  destruct (Z.ltb_spec sckt 0) as [Hneg|Hpos]; simpl.
  { eexists. split; [reflexivity|]. simpl. repeat split.
    rewrite (new_touched_app s _ []) by reflexivity. constructor. }
  destruct (Z.leb_spec MAX_FD_COUNT sckt) as [Hbig|Hsmall]; simpl.
  { eexists. split; [reflexivity|]. simpl. repeat split.
    rewrite (new_touched_app s _ []) by reflexivity. constructor. }
  destruct Hinv as [Hlt|[Hge|Hfree]]; [lia|lia|].
  unfold bind. rewrite (fds_load_in _ _ _ Hfree).
  unfold FREE. rewrite Z.eqb_refl.
  eexists. split; [reflexivity|]. simpl. repeat split.
  rewrite (new_touched_app s _ [sckt]) by reflexivity.
  constructor; [lia|constructor].
Qed.

Lemma VERIFY_FD_valid (sckt fd : Z) (body : M Z) (s : State) :
  wf s -> slot (fds s) sckt = Some fd -> fd <> FREE ->
  VERIFY_FD world sckt body s = body (touch sckt s).
Proof.
  intros Hwf Hs Hfd. unfold VERIFY_FD.
  pose proof (slot_range _ _ _ Hs) as Hr. unfold wf in Hwf.
  destruct (Z.ltb_spec sckt 0); [lia|].
  destruct (Z.leb_spec MAX_FD_COUNT sckt); [lia|]. simpl.
  unfold bind. rewrite (fds_load_in _ _ _ Hs).
  destruct (Z.eqb_spec (-1) fd) as [He|_]; [|reflexivity].
  exfalso. apply Hfd. unfold FREE. lia.
Qed.

(** With a well-formed table every handle is either let through or turned
    away. *)
Lemma valid_or_invalid (s : State) (sckt : Z) :
  wf s -> valid_fd s sckt \/ invalid_fd s sckt.
Proof.
  intros Hwf. unfold wf in Hwf. unfold valid_fd, invalid_fd.
  destruct (Z.lt_ge_cases sckt 0) as [Hneg|Hpos]; [right; left; exact Hneg|].
  destruct (Z.lt_ge_cases sckt MAX_FD_COUNT) as [Hin|Hout];
    [|right; right; left; exact Hout].
  destruct (slot_in_range (fds s) sckt) as [v Hv]; [lia|].
  destruct (Z.eq_dec v FREE) as [->|Hne].
  - right. right. right. exact Hv.
  - left. exists v. split; assumption.
Qed.

(** [set_socket_non_blocking] on an owned slot, the two reads of the
    slot resolved. *)
Lemma set_socket_non_blocking_owned (index fd : Z) (s : State) :
  slot (fds s) index = Some fd ->
  set_socket_non_blocking world index s =
  let (flags, s1) := host_int world (c_fcntl_getfl fd) (touch index s) in
  if flags <? 0 then (-1, s1)
  else
    let (r, s2) :=
      host_int world (c_fcntl_setfl fd (Z.lor flags O_NONBLOCK)) (touch index s1) in
    if r <? 0 then (-1, s2) else (index, s2).
Proof.
  intros Hs. unfold set_socket_non_blocking, bind.
  rewrite (fds_load_in _ _ _ Hs).
  unfold host_int at 1 3. simpl.
  set (flags := int32 (r_val (world (trace s) (c_fcntl_getfl fd)))).
  destruct (flags <? 0) eqn:Hflags; simpl; [reflexivity|].
  rewrite (fds_load_in index fd); [|exact Hs].
  unfold ret. simpl.
  match goal with |- context [?x <? 0] => destruct (x <? 0) end; reflexivity.
Qed.

End Primitives.

(** ** create and accept, the scan and the slot reads resolved *)

Section Resolved.

Context `{P : Platform}.
Variable world : list Event -> Call -> Reply.

Lemma qc_handle_socket_full (domain type protocol : Z) (s : State) :
  wf s -> full (fds s) ->
  qc_handle_socket world domain type protocol s
  = (-1, with_qemu_errno ENOTSOCK
           (with_qemu_errno ENOMEM
              (touches (rev (Zrange 0 (Z.to_nat MAX_FD_COUNT))) s))).
Proof.
  intros Hwf Hfull. unfold qc_handle_socket, bind.
  rewrite (find_free_socket_full world s Hwf Hfull). reflexivity.
Qed.

Lemma qc_handle_socket_found (domain type protocol : Z) (s : State) (i : Z) :
  wf s -> lowest_free (fds s) i ->
  qc_handle_socket world domain type protocol s =
  let (fd, s1) := host_int world (c_socket domain type protocol) (scanned i s) in
  let s2 := with_fds (<[Z.to_nat i := fd]> (fds s)) (touch i s1) in
  if fd <? 0 then (-1, with_qemu_errno (errno s2) s2)
  else
    let (flags, s3) := host_int world (c_fcntl_getfl fd) (touch i s2) in
    if flags <? 0 then socket_cleanup world s3
    else
      let (r, s4) :=
        host_int world (c_fcntl_setfl fd (Z.lor flags O_NONBLOCK)) (touch i s3) in
      if r <? 0 then socket_cleanup world s4 else (i, s4).
Proof.
  intros Hwf Hlow. pose proof Hlow as [Hi _].
  pose proof (slot_range _ _ _ Hi) as Hrange.
  unfold qc_handle_socket, bind.
  rewrite (find_free_socket_found world s i Hwf Hlow). fold (scanned i s).
  destruct (Z.ltb_spec i 0) as [?|_]; [lia|].
  destruct (host_int world (c_socket domain type protocol) (scanned i s))
    as [fd s1] eqn:Hsock.
  assert (Hfds1 : fds s1 = fds s).
  { unfold host_int in Hsock. injection Hsock as _ <-.
    destruct (_ <? 0); reflexivity. }
  rewrite (fds_store_in i FREE fd s1) by (rewrite Hfds1; exact Hi).
  rewrite Hfds1.
  destruct (fd <? 0) eqn:Hfd; [reflexivity|].
  rewrite (set_socket_non_blocking_owned world i fd)
    by (simpl; eapply slot_insert_eq; exact Hi).
  destruct (host_int world (c_fcntl_getfl fd) _) as [flags s3].
  destruct (flags <? 0) eqn:Hflags; [reflexivity|].
  destruct (host_int world (c_fcntl_setfl fd _) _) as [r s4].
  destruct (r <? 0) eqn:Hr; [reflexivity|].
  destruct (Z.ltb_spec i 0); [lia|reflexivity].
Qed.

Lemma qc_handle_accept_full (sckt g_addr g_addrlen lfd : Z) (s : State) :
  wf s -> slot (fds s) sckt = Some lfd -> lfd <> FREE -> full (fds s) ->
  qc_handle_accept world sckt g_addr g_addrlen s
  = (-1, with_qemu_errno ENOTSOCK
           (with_qemu_errno ENOMEM
              (touches (rev (Zrange 0 (Z.to_nat MAX_FD_COUNT))) (touch sckt s)))).
Proof.
  intros Hwf Hs Hlfd Hfull. unfold qc_handle_accept.
  rewrite (VERIFY_FD_valid world sckt lfd) by assumption.
  unfold bind.
  rewrite (find_free_socket_full world (touch sckt s)) by assumption.
  reflexivity.
Qed.

Lemma qc_handle_accept_found (sckt g_addr g_addrlen lfd : Z) (s : State) (i : Z) :
  wf s -> slot (fds s) sckt = Some lfd -> lfd <> FREE ->
  lowest_free (fds s) i ->
  qc_handle_accept world sckt g_addr g_addrlen s =
  let '(fd, addr, addrlen, s1) :=
    host_accept world lfd (touch sckt (scanned i (touch sckt s))) in
  let s2 := with_fds (<[Z.to_nat i := fd]> (fds s)) (touch i s1) in
  if fd <? 0 then (-1, with_qemu_errno (errno s2) s2)
  else
    let (flags, s3) := host_int world (c_fcntl_getfl fd) (touch i s2) in
    if flags <? 0 then accept_cleanup s3
    else
      let (r, s4) :=
        host_int world (c_fcntl_setfl fd (Z.lor flags O_NONBLOCK)) (touch i s3) in
      if r <? 0 then accept_cleanup s4
      else
        (cpu_memory_rw_debug_write world g_addr addr sizeof_sockaddr_in ;;;
         cpu_memory_rw_debug_write world g_addrlen
           (le_bytes (Z.to_nat sizeof_socklen_t) addrlen) sizeof_socklen_t ;;;
         ret i) s4.
Proof.
  intros Hwf Hs Hlfd Hlow. pose proof Hlow as [Hi _].
  pose proof (slot_range _ _ _ Hi) as Hrange.
  unfold qc_handle_accept.
  rewrite (VERIFY_FD_valid world sckt lfd) by assumption.
  unfold bind at 1.
  rewrite (find_free_socket_found world (touch sckt s) i) by assumption.
  fold (scanned i (touch sckt s)).
  destruct (Z.ltb_spec i 0) as [?|_]; [lia|].
  unfold bind at 1. rewrite (fds_load_in world sckt lfd) by exact Hs.
  unfold bind at 1.
  destruct (host_accept world lfd _) as [[[fd addr] addrlen] s1] eqn:Hacc.
  assert (Hfds1 : fds s1 = fds s).
  { unfold host_accept in Hacc. injection Hacc as _ _ _ <-.
    destruct (_ <? 0); reflexivity. }
  unfold bind at 1.
  rewrite (fds_store_in i FREE fd s1) by (rewrite Hfds1; exact Hi).
  rewrite Hfds1.
  destruct (fd <? 0) eqn:Hfd; [reflexivity|].
  unfold bind at 1.
  rewrite (set_socket_non_blocking_owned world i fd)
    by (simpl; eapply slot_insert_eq; exact Hi).
  destruct (host_int world (c_fcntl_getfl fd) _) as [flags s3].
  destruct (flags <? 0) eqn:Hflags; [reflexivity|].
  destruct (host_int world (c_fcntl_setfl fd _) _) as [r s4].
  destruct (r <? 0) eqn:Hr; [reflexivity|].
  destruct (Z.ltb_spec i 0); [lia|reflexivity].
Qed.

End Resolved.

(** ** What a run leaves behind *)

Section Paths.

Context `{P : Platform}.
Variable world : list Event -> Call -> Reply.

Lemma host_int_inv (c : Call) (s s1 : State) (v : Z) :
  host_int world c s = (v, s1) ->
  v = int32 (r_val (world (trace s) c))
  /\ fds s1 = fds s /\ qemu_errno s1 = qemu_errno s
  /\ trace s1 = Ev c v :: trace s /\ touched s1 = touched s
  /\ (0 <= v -> errno s1 = errno s)
  /\ (v < 0 -> errno s1 = int32 (r_errno (world (trace s) c))).
Proof.
  unfold host_int. intros Hrun. injection Hrun as <- <-.
  destruct (Z.ltb_spec (int32 (r_val (world (trace s) c))) 0); simpl;
    repeat split; auto; lia.
Qed.

Lemma host_accept_inv (lfd : Z) (s s1 : State) (v : Z) (addr : list byte) (len : Z) :
  host_accept world lfd s = (v, addr, len, s1) ->
  v = int32 (r_val (world (trace s) (c_accept lfd)))
  /\ fds s1 = fds s /\ qemu_errno s1 = qemu_errno s
  /\ trace s1 = Ev (c_accept lfd) v :: trace s /\ touched s1 = touched s
  /\ (0 <= v -> errno s1 = errno s)
  /\ (v < 0 -> errno s1 = int32 (r_errno (world (trace s) (c_accept lfd)))).
Proof.
  unfold host_accept. intros Hrun. injection Hrun as <- _ _ <-.
  destruct (Z.ltb_spec (int32 (r_val (world (trace s) (c_accept lfd)))) 0); simpl;
    repeat split; auto; lia.
Qed.

Lemma socket_cleanup_inv (s s' : State) (r : Z) :
  socket_cleanup world s = (r, s') ->
  r = -1 /\ fds s' = fds s /\ qemu_errno s' = errno s
  /\ touched s' = -1 :: -1 :: touched s
  /\ exists v w,
       trace s' = Ev (c_oob_store (-1) (-1)) 0 :: Ev (c_close v) w
                  :: Ev (c_oob_load (-1)) v :: trace s.
Proof.
  unfold socket_cleanup, bind, get_errno, set_qemu_errno.
  unfold fds_load. rewrite slot_negative by lia. cbn.
  destruct (host_int world _ _) as [w s1] eqn:Hclose.
  apply host_int_inv in Hclose as (Hw & Hf & Hq & Ht & Hto & _).
  rewrite fds_store_out by (apply slot_negative; lia).
  unfold ret. intros Hrun. injection Hrun as <- <-. simpl.
  rewrite Hf, Hq, Ht, Hto. simpl. repeat split; eauto.
Qed.

Lemma accept_cleanup_inv (s s' : State) (r : Z) :
  accept_cleanup s = (r, s') ->
  r = -1 /\ fds s' = fds s /\ qemu_errno s' = errno s
  /\ touched s' = -1 :: touched s
  /\ trace s' = Ev (c_oob_store (-1) (-1)) 0 :: trace s.
Proof.
  unfold accept_cleanup, bind, get_errno, set_qemu_errno.
  rewrite fds_store_out by (apply slot_negative; lia).
  unfold ret. intros Hrun. injection Hrun as <- <-. simpl. auto.
Qed.

Lemma in_bounds_Zrange (k : nat) :
  Z.of_nat k <= MAX_FD_COUNT -> in_bounds (rev (Zrange 0 k)).
Proof.
  intros Hk. unfold in_bounds. apply Forall_forall. intros x Hx.
  apply list_elem_of_In, in_rev, Zrange_bounds in Hx. lia.
Qed.

Lemma in_bounds_cons (k : Z) (l : list Z) :
  0 <= k < MAX_FD_COUNT -> in_bounds l -> in_bounds (k :: l).
Proof. intros Hk Hl. constructor; assumption. Qed.

Lemma in_bounds_scan (i : Z) :
  0 <= i < MAX_FD_COUNT -> in_bounds (rev (Zrange 0 (Z.to_nat (i + 1)))).
Proof. intros Hi. apply in_bounds_Zrange. lia. Qed.

Lemma create_paths (domain type protocol : Z) (s s' : State) (r : Z) :
  wf s ->
  qc_handle_socket world domain type protocol s = (r, s') ->
  create_path world s domain type protocol r s'.
Proof.
  intros Hwf Hrun.
  destruct (lowest_free_or_full (fds s)) as [[i Hlow]|Hfull].
  2:{ rewrite (qc_handle_socket_full world _ _ _ s Hwf Hfull) in Hrun.
      injection Hrun as <- <-.
      apply create_exhausted; try reflexivity; try assumption.
      rewrite (new_touched_app s _ (rev (Zrange 0 (Z.to_nat MAX_FD_COUNT))))
        by reflexivity.
      apply in_bounds_Zrange. unfold wf in Hwf. lia. }
  pose proof Hlow as [Hi _]. pose proof (slot_range _ _ _ Hi) as Hrange.
  assert (Hib : 0 <= i < MAX_FD_COUNT) by (unfold wf in Hwf; lia).
  rewrite (qc_handle_socket_found world _ _ _ s i Hwf Hlow) in Hrun.
  destruct (host_int world (c_socket _ _ _) _) as [fd s1] eqn:Hsock.
  apply host_int_inv in Hsock as (Hfd & Hf1 & Hq1 & Ht1 & Hto1 & _).
  cbv zeta in Hrun.
  destruct (Z.ltb_spec fd 0) as [Hneg|Hpos].
  { injection Hrun as <- <-.
    eapply create_host_failed; eauto.
    rewrite (new_touched_app s _ (i :: rev (Zrange 0 (Z.to_nat (i + 1)))))
        by (cbn; rewrite Hto1; reflexivity).
      apply in_bounds_cons; [exact Hib|apply in_bounds_scan; exact Hib]. }
  destruct (host_int world (c_fcntl_getfl fd) _) as [flags s3] eqn:Hget.
  apply host_int_inv in Hget as (Hflags & Hf3 & Hq3 & Ht3 & Hto3 & _).
  cbn in Hf3, Hq3, Ht3, Hto3. rewrite Ht1 in Ht3. rewrite Hto1 in Hto3.
  destruct (Z.ltb_spec flags 0) as [Hfneg|Hfpos].
  { apply socket_cleanup_inv in Hrun as (-> & Hf & Hq & Hto & v & w & Ht).
    eapply (create_setup_failed world _ _ _ _ _ _ i fd
              [Ev (c_oob_store (-1) (-1)) 0; Ev (c_close v) w;
               Ev (c_oob_load (-1)) v; Ev (c_fcntl_getfl fd) flags]); eauto.
    - rewrite Hf, Hf3. reflexivity.
    - rewrite Ht, Ht3. reflexivity.
    - cbn. destruct (Z.ltb_spec flags 0); [|lia].
      reflexivity.
    - rewrite (new_touched_app s _
        (-1 :: -1 :: i :: i :: rev (Zrange 0 (Z.to_nat (i + 1)))))
        by (rewrite Hto, Hto3; reflexivity).
      left. reflexivity. }
  destruct (host_int world (c_fcntl_setfl fd _) _) as [ok s4] eqn:Hset.
  apply host_int_inv in Hset as (Hok & Hf4 & Hq4 & Ht4 & Hto4 & _).
  cbn in Hf4, Hq4, Ht4, Hto4.
  rewrite Hf3 in Hf4. rewrite Hq3, Hq1 in Hq4.
  rewrite Ht3 in Ht4. rewrite Hto3 in Hto4.
  destruct (Z.ltb_spec ok 0) as [Hsneg|Hspos].
  { apply socket_cleanup_inv in Hrun as (-> & Hf & Hq & Hto & v & w & Ht).
    eapply (create_setup_failed world _ _ _ _ _ _ i fd
              [Ev (c_oob_store (-1) (-1)) 0; Ev (c_close v) w;
               Ev (c_oob_load (-1)) v;
               Ev (c_fcntl_setfl fd (Z.lor flags O_NONBLOCK)) ok;
               Ev (c_fcntl_getfl fd) flags]); eauto.
    - rewrite Hf, Hf4. reflexivity.
    - rewrite Ht, Ht4. reflexivity.
    - cbn. destruct (Z.ltb_spec ok 0); [|lia].
      reflexivity.
    - rewrite (new_touched_app s _
        (-1 :: -1 :: i :: i :: i :: rev (Zrange 0 (Z.to_nat (i + 1)))))
        by (rewrite Hto, Hto4; reflexivity).
      left. reflexivity. }
  injection Hrun as <- <-.
  eapply (create_ok world _ _ _ _ _ _ i fd flags ok); eauto.
  rewrite (new_touched_app s _ (i :: i :: i :: rev (Zrange 0 (Z.to_nat (i + 1)))))
    by (rewrite Hto4; reflexivity).
  repeat apply in_bounds_cons; try exact Hib. apply in_bounds_scan; exact Hib.
Qed.

Lemma accept_paths (sckt g_addr g_addrlen : Z) (s s' : State) (r : Z) :
  wf s ->
  qc_handle_accept world sckt g_addr g_addrlen s = (r, s') ->
  accept_path world s sckt g_addr g_addrlen r s'.
Proof.
  intros Hwf Hrun.
  destruct (valid_or_invalid s sckt Hwf) as [Hval|Hinv].
  2:{ unfold qc_handle_accept in Hrun.
      match type of Hrun with
      | VERIFY_FD _ _ ?body _ = _ =>
          destruct (VERIFY_FD_invalid world sckt body s Hwf Hinv)
            as (s0 & Heq & Hq & Hf & _ & Ht & Hb)
      end.
      rewrite Heq in Hrun. injection Hrun as <- <-.
      apply accept_rejected; auto. }
  pose proof Hval as (lfd & Hs & Hlfd).
  pose proof (slot_range _ _ _ Hs) as Hsr.
  assert (Hsb : 0 <= sckt < MAX_FD_COUNT) by (unfold wf in Hwf; lia).
  destruct (lowest_free_or_full (fds s)) as [[i Hlow]|Hfull].
  2:{ rewrite (qc_handle_accept_full world _ _ _ lfd s Hwf Hs Hlfd Hfull) in Hrun.
      injection Hrun as <- <-.
      apply accept_exhausted; try reflexivity; try assumption.
      rewrite (new_touched_app s _
        (rev (Zrange 0 (Z.to_nat MAX_FD_COUNT)) ++ [sckt]))
        by (cbn; rewrite <- app_assoc; reflexivity).
      apply Forall_app. split.
      - apply in_bounds_Zrange. unfold wf in Hwf. lia.
      - constructor; [exact Hsb|constructor]. }
  pose proof Hlow as [Hi _]. pose proof (slot_range _ _ _ Hi) as Hrange.
  assert (Hib : 0 <= i < MAX_FD_COUNT) by (unfold wf in Hwf; lia).
  assert (Hscan : in_bounds (rev (Zrange 0 (Z.to_nat (i + 1))) ++ [sckt])).
  { apply Forall_app. split; [apply in_bounds_scan; exact Hib|].
    constructor; [exact Hsb|constructor]. }
  rewrite (qc_handle_accept_found world _ _ _ lfd s i Hwf Hs Hlfd Hlow) in Hrun.
  destruct (host_accept world lfd _) as [[[fd addr] addrlen] s1] eqn:Hacc.
  apply host_accept_inv in Hacc as (Hfd & Hf1 & Hq1 & Ht1 & Hto1 & _).
  cbn in Hfd, Hf1, Hq1, Ht1.
  assert (Hto0 : touched (touch sckt (scanned i (touch sckt s)))
                 = (sckt :: rev (Zrange 0 (Z.to_nat (i + 1))) ++ [sckt])
                   ++ touched s).
  { unfold scanned, touches, touch. cbn. rewrite <- app_assoc. reflexivity. }
  rewrite Hto0 in Hto1. clear Hto0.
  cbv zeta in Hrun.
  destruct (Z.ltb_spec fd 0) as [Hneg|Hpos].
  { injection Hrun as <- <-.
    eapply (accept_host_failed world _ _ _ _ _ _ lfd i fd); eauto.
    rewrite (new_touched_app s _
      (i :: sckt :: rev (Zrange 0 (Z.to_nat (i + 1))) ++ [sckt]))
      by (cbn; rewrite Hto1; reflexivity).
    repeat apply in_bounds_cons; assumption. }
  destruct (host_int world (c_fcntl_getfl fd) _) as [flags s3] eqn:Hget.
  apply host_int_inv in Hget as (Hflags & Hf3 & Hq3 & Ht3 & Hto3 & _).
  cbn in Hf3, Hq3, Ht3, Hto3. rewrite Ht1 in Ht3. rewrite Hto1 in Hto3.
  destruct (Z.ltb_spec flags 0) as [Hfneg|Hfpos].
  { apply accept_cleanup_inv in Hrun as (-> & Hf & Hq & Hto & Ht).
    eapply (accept_setup_failed world _ _ _ _ _ _ lfd i fd
              [Ev (c_oob_store (-1) (-1)) 0; Ev (c_fcntl_getfl fd) flags]);
      eauto.
    - rewrite Hf, Hf3. reflexivity.
    - rewrite Ht, Ht3. reflexivity.
    - cbn. destruct (Z.ltb_spec flags 0); [|lia]. reflexivity.
    - rewrite (new_touched_app s _
        (-1 :: i :: i :: sckt :: rev (Zrange 0 (Z.to_nat (i + 1))) ++ [sckt]))
        by (rewrite Hto, Hto3; reflexivity).
      left. reflexivity. }
  destruct (host_int world (c_fcntl_setfl fd _) _) as [ok s4] eqn:Hset.
  apply host_int_inv in Hset as (Hok & Hf4 & Hq4 & Ht4 & Hto4 & _).
  cbn in Hf4, Hq4, Ht4, Hto4.
  rewrite Hf3 in Hf4. rewrite Hq3, Hq1 in Hq4.
  rewrite Ht3 in Ht4. rewrite Hto3 in Hto4.
  destruct (Z.ltb_spec ok 0) as [Hsneg|Hspos].
  { apply accept_cleanup_inv in Hrun as (-> & Hf & Hq & Hto & Ht).
    eapply (accept_setup_failed world _ _ _ _ _ _ lfd i fd
              [Ev (c_oob_store (-1) (-1)) 0;
               Ev (c_fcntl_setfl fd (Z.lor flags O_NONBLOCK)) ok;
               Ev (c_fcntl_getfl fd) flags]); eauto.
    - rewrite Hf, Hf4. reflexivity.
    - rewrite Ht, Ht4. reflexivity.
    - cbn. destruct (Z.ltb_spec ok 0); [|lia]. reflexivity.
    - rewrite (new_touched_app s _
        (-1 :: i :: i :: i :: sckt :: rev (Zrange 0 (Z.to_nat (i + 1))) ++ [sckt]))
        by (rewrite Hto, Hto4; reflexivity).
      left. reflexivity. }
  unfold bind, cpu_memory_rw_debug_write, ret in Hrun.
  injection Hrun as <- <-. cbn.
  eapply (accept_ok world _ _ _ _ _ _ lfd i fd flags ok); eauto.
  - cbn. rewrite Ht4. reflexivity.
  - rewrite (new_touched_app s _
      (i :: i :: i :: sckt :: rev (Zrange 0 (Z.to_nat (i + 1))) ++ [sckt]))
      by (cbn; rewrite Hto4; reflexivity).
    repeat apply in_bounds_cons; assumption.
Qed.

End Paths.

(** ** The handlers that take a handle *)

Section Handlers.

Context `{P : Platform}.
Variable world : list Event -> Call -> Reply.

Lemma VERIFY_FD_rejects (sckt : Z) (body : M Z) (s : State) :
  wf s -> invalid_fd s sckt ->
  quiet (VERIFY_FD world sckt body s) (-1) ENOTSOCK s.
Proof.
  intros Hwf Hinv.
  destruct (VERIFY_FD_invalid world sckt body s Hwf Hinv)
    as (s' & -> & Hq & Hf & He & Ht & _).
  unfold quiet. cbn. auto.
Qed.

Lemma host_ssize_inv (c : Call) (s s1 : State) (v : Z) (data : list byte) :
  host_ssize world c s = (v, data, s1) ->
  v = int64 (r_val (world (trace s) c))
  /\ data = r_data (world (trace s) c)
  /\ fds s1 = fds s /\ qemu_errno s1 = qemu_errno s
  /\ trace s1 = Ev c v :: trace s /\ touched s1 = touched s
  /\ (0 <= v -> errno s1 = errno s)
  /\ (v < 0 -> errno s1 = int32 (r_errno (world (trace s) c))).
Proof.
  unfold host_ssize. intros Hrun. injection Hrun as <- <- <-.
  destruct (Z.ltb_spec (int64 (r_val (world (trace s) c))) 0); cbn;
    repeat split; auto; lia.
Qed.

Lemma recv_paths (sckt g_buffer length flags : Z) (s s' : State) (r : Z) :
  wf s ->
  qc_handle_recv world sckt g_buffer length flags s = (r, s') ->
  recv_path world s sckt g_buffer length flags r s'.
Proof.
  intros Hwf Hrun. unfold qc_handle_recv in Hrun.
  destruct (valid_or_invalid s sckt Hwf) as [Hval|Hinv].
  2:{ match type of Hrun with
      | VERIFY_FD _ _ ?body _ = _ =>
          destruct (VERIFY_FD_rejects sckt body s Hwf Hinv)
            as (Hr & Hq & Hf & _ & Ht)
      end.
      rewrite Hrun in Hr, Hq, Hf, Ht. cbn in Hr, Hq, Hf, Ht.
      apply recv_rejected; auto. }
  pose proof Hval as (fd & Hs & Hfd).
  rewrite (VERIFY_FD_valid world sckt fd) in Hrun by assumption.
  destruct (Z.gtb_spec length MAX_BUF_SIZE) as [Hbig|Hsmall].
  { injection Hrun as <- <-. apply recv_oversize; auto. }
  unfold bind at 1 in Hrun.
  rewrite (fds_load_in world sckt fd) in Hrun by exact Hs.
  unfold bind at 1 in Hrun.
  destruct (host_ssize world _ _) as [[n data] s1] eqn:Hhost.
  apply host_ssize_inv in Hhost as (Hn & Hdata & Hf1 & Hq1 & Ht1 & _ & Hpos & Hneg).
  cbn in Hn, Hdata, Hf1, Hq1, Ht1, Hpos, Hneg, Hrun.
  destruct (Z.leb_spec (int32 n) 0) as [Hle|Hgt].
  - injection Hrun as <- <-.
    eapply (recv_nothing world _ _ _ _ _ _ _ fd n); eauto; try lia.
  - unfold bind, cpu_memory_rw_debug_write, ret in Hrun.
    injection Hrun as <- <-.
    eapply (recv_delivered world _ _ _ _ _ _ _ fd n); eauto; try lia.
    cbn. rewrite Ht1, Hdata. reflexivity.
Qed.

Lemma valid_not_invalid (s : State) (sckt : Z) :
  wf s -> valid_fd s sckt -> invalid_fd s sckt -> False.
Proof.
  intros Hwf (fd & Hs & Hfd) Hinv. pose proof (slot_range _ _ _ Hs) as Hr.
  unfold wf in Hwf. destruct Hinv as [Hlt|[Hge|Hfree]]; try lia.
  rewrite Hs in Hfree. congruence.
Qed.

(** [bind] and [connect] with an oversize [addrlen], past the gate. *)
Lemma qc_handle_bind_oversize (sckt g_addr addrlen : Z) (s : State) :
  wf s -> valid_fd s sckt -> sizeof_sockaddr_in < addrlen ->
  qc_handle_bind world sckt g_addr addrlen s
  = (0, with_qemu_errno ENOMEM (touch sckt s)).
Proof.
  intros Hwf (fd & Hs & Hfd) Hbig. unfold qc_handle_bind.
  rewrite (VERIFY_FD_valid world sckt fd) by assumption.
  destruct (Z.gtb_spec addrlen sizeof_sockaddr_in); [reflexivity|lia].
Qed.

Lemma qc_handle_connect_oversize (sckt g_addr addrlen : Z) (s : State) :
  wf s -> valid_fd s sckt -> sizeof_sockaddr_in < addrlen ->
  qc_handle_connect world sckt g_addr addrlen s
  = (0, with_qemu_errno ENOMEM (touch sckt s)).
Proof.
  intros Hwf (fd & Hs & Hfd) Hbig. unfold qc_handle_connect.
  rewrite (VERIFY_FD_valid world sckt fd) by assumption.
  destruct (Z.gtb_spec addrlen sizeof_sockaddr_in); [reflexivity|lia].
Qed.

(** [send] with an oversize [length], past the gate. *)
Lemma qc_handle_send_oversize (sckt g_buffer length flags : Z) (s : State) :
  wf s -> valid_fd s sckt -> MAX_BUF_SIZE < length ->
  qc_handle_send world sckt g_buffer length flags s
  = (-1, with_qemu_errno ENOMEM (touch sckt s)).
Proof.
  intros Hwf (fd & Hs & Hfd) Hbig. unfold qc_handle_send.
  rewrite (VERIFY_FD_valid world sckt fd) by assumption.
  destruct (Z.gtb_spec length MAX_BUF_SIZE); [reflexivity|lia].
Qed.

Lemma qc_handle_recv_oversize (sckt g_buffer length flags : Z) (s : State) :
  wf s -> valid_fd s sckt -> MAX_BUF_SIZE < length ->
  qc_handle_recv world sckt g_buffer length flags s
  = (-1, with_qemu_errno ENOMEM (touch sckt s)).
Proof.
  intros Hwf (fd & Hs & Hfd) Hbig. unfold qc_handle_recv.
  rewrite (VERIFY_FD_valid world sckt fd) by assumption.
  destruct (Z.gtb_spec length MAX_BUF_SIZE); [reflexivity|lia].
Qed.

End Handlers.

(** ** Allocation order *)

Section Allocation.

Context `{P : Platform}.
Variable world : list Event -> Call -> Reply.
Variables domain type protocol : Z.

(** On a cooperative host create returns the lowest free slot and stores
    the new descriptor there. *)
Lemma qc_handle_socket_cooperative (s : State) (i : Z) :
  cooperative world -> wf s -> lowest_free (fds s) i ->
  exists fd s',
    qc_handle_socket world domain type protocol s = (i, s')
    /\ 0 <= fd /\ fds s' = <[Z.to_nat i := fd]> (fds s).
Proof.
  intros Hco Hwf Hlow.
  rewrite (qc_handle_socket_found world _ _ _ s i Hwf Hlow).
  destruct (host_int world (c_socket domain type protocol) (scanned i s))
    as [fd s1] eqn:Hsock.
  apply host_int_inv in Hsock as (Hfd & Hf1 & _).
  assert (Hpos : 0 <= fd) by (rewrite Hfd; apply Hco; reflexivity).
  cbv zeta. destruct (Z.ltb_spec fd 0); [lia|].
  destruct (host_int world (c_fcntl_getfl fd) _) as [flags s3] eqn:Hget.
  apply host_int_inv in Hget as (Hflags & Hf3 & _).
  assert (Hfpos : 0 <= flags) by (rewrite Hflags; apply Hco; reflexivity).
  destruct (Z.ltb_spec flags 0); [lia|].
  destruct (host_int world (c_fcntl_setfl fd _) _) as [ok s4] eqn:Hset.
  apply host_int_inv in Hset as (Hok & Hf4 & _).
  assert (Hspos : 0 <= ok) by (rewrite Hok; apply Hco; reflexivity).
  destruct (Z.ltb_spec ok 0); [lia|].
  exists fd, s4. split; [reflexivity|]. split; [exact Hpos|].
  rewrite Hf4. cbn. rewrite Hf3. reflexivity.
Qed.

(** A table whose slots below [k] are owned and whose next [n] slots are
    free hands out [k, k+1, ..., k+n-1], and ends with the slots below
    [k+n] owned and the others as they were. *)
Lemma creates_in_order (n : nat) (k : Z) (s : State) :
  cooperative world -> wf s -> 0 <= k ->
  (forall j, 0 <= j < k -> slot (fds s) j <> Some FREE) ->
  (forall j, k <= j < k + Z.of_nat n -> slot (fds s) j = Some FREE) ->
  fst (creates world domain type protocol n s) = Zrange k n
  /\ wf (snd (creates world domain type protocol n s))
  /\ (forall j, 0 <= j < k + Z.of_nat n ->
        slot (fds (snd (creates world domain type protocol n s))) j <> Some FREE).
Proof.
  intros Hco. revert k s.
  induction n as [|n IH]; intros k s Hwf Hk Hown Hfree.
  - cbn. split; [reflexivity|]. split; [exact Hwf|].
    intros j Hj. apply Hown. lia.
  - assert (Hlow : lowest_free (fds s) k).
    { split; [apply Hfree; lia|exact Hown]. }
    destruct (qc_handle_socket_cooperative s k Hco Hwf Hlow)
      as (fd & s1 & Hrun & Hfd & Hf).
    cbn [creates]. rewrite Hrun.
    assert (Hwf1 : wf s1).
    { unfold wf in *. rewrite Hf, length_insert. exact Hwf. }
    destruct (IH (k + 1) s1) as (Hrs & Hwf2 & Hown2); try assumption; try lia.
    + intros j Hj. rewrite Hf.
      destruct (Z.eq_dec j k) as [->|Hne].
      * rewrite (slot_insert_eq _ _ FREE) by (destruct Hlow; assumption).
        unfold FREE. intros Heq. injection Heq as Heq. lia.
      * rewrite slot_insert_ne by lia. apply Hown. lia.
    + intros j Hj. rewrite Hf, slot_insert_ne by lia. apply Hfree. lia.
    + destruct (creates world domain type protocol n s1) as [rs s2]. cbn in *.
      split; [rewrite Hrs; reflexivity|]. split; [exact Hwf2|].
      intros j Hj. apply Hown2. lia.
Qed.

Lemma slot_replicate (n : nat) (v j : Z) :
  0 <= j < Z.of_nat n -> slot (replicate n v) j = Some v.
Proof.
  intros Hj. unfold slot. destruct (Z.leb_spec 0 j); [|lia].
  apply lookup_replicate_2. lia.
Qed.

Lemma full_by_range (s : State) :
  (forall j, 0 <= j < Z.of_nat (length (fds s)) -> slot (fds s) j <> Some FREE) ->
  full (fds s).
Proof.
  intros Hown j Hj. pose proof (slot_range _ _ _ Hj) as Hr.
  exact (Hown j Hr Hj).
Qed.

(** Releasing leaves a well-formed table with the slot free. *)
Lemma release_lowest (h : Z) (s : State) :
  valid_fd s h ->
  (forall j, 0 <= j < h -> slot (fds s) j <> Some FREE) ->
  lowest_free (fds (release h s)) h.
Proof.
  intros (fd & Hs & _) Hown. pose proof (slot_range _ _ _ Hs) as Hr.
  unfold release. cbn. split.
  - eapply slot_insert_eq. exact Hs.
  - intros j Hj. rewrite slot_insert_ne by lia. apply Hown. exact Hj.
Qed.

Lemma release_wf (h : Z) (s : State) : wf s -> wf (release h s).
Proof.
  unfold wf, release. cbn. rewrite length_insert. auto.
Qed.

End Allocation.

Lemma full_forallb (t : list Z) :
  forallb (fun v => negb (v =? FREE)) t = true -> full t.
Proof.
  intros Hall j Hj. unfold slot in Hj.
  destruct (0 <=? j); [|discriminate].
  rewrite forallb_forall in Hall.
  apply list_elem_of_lookup_2, list_elem_of_In, Hall in Hj.
  unfold FREE in Hj. rewrite Z.eqb_refl in Hj. discriminate.
Qed.

(** * The claims *)

Section Claims.

Context `{P : Platform}.
Variable world : list Event -> Call -> Reply.

(** C3 (the code departs from the claim).  On a table with no free slot
    [find_free_socket] leaves ENOMEM in the error cell, but
    [qc_handle_socket] then overwrites it: the handler returns -1 with
    ENOTSOCK, the invalid-socket code, in the cell, the table and the
    trace untouched. *)
Theorem create_on_full_table_reports_ENOTSOCK
    (domain type protocol : Z) (s : State) :
  wf s -> full (fds s) ->
  qemu_errno (snd (find_free_socket world s)) = ENOMEM
  /\ fst (qc_handle_socket world domain type protocol s) = -1
  /\ qemu_errno (snd (qc_handle_socket world domain type protocol s)) = ENOTSOCK
  /\ fds (snd (qc_handle_socket world domain type protocol s)) = fds s
  /\ trace (snd (qc_handle_socket world domain type protocol s)) = trace s.
Proof.
  intros Hwf Hfull.
  rewrite (find_free_socket_full world s Hwf Hfull).
  rewrite (qc_handle_socket_full world domain type protocol s Hwf Hfull).
  cbn. auto.
Qed.

(** C1 (the code departs from the claim).  When non-blocking setup fails
    in [qc_handle_socket] or [qc_handle_accept], the handler returns -1
    and the slot it claimed, free before the call, still holds the host
    descriptor afterwards: it is not set back to FREE. *)
Theorem setup_failure_keeps_slot_claimed
    (domain type protocol sckt g_addr g_addrlen r : Z) (s s' : State) :
  wf s ->
  qc_handle_socket world domain type protocol s = (r, s')
  \/ qc_handle_accept world sckt g_addr g_addrlen s = (r, s') ->
  setup_failed (new_events s s') = true ->
  r = -1
  /\ exists i fd, slot (fds s) i = Some FREE
       /\ slot (fds s') i = Some fd /\ 0 <= fd /\ fd <> FREE.
Proof.
  intros Hwf [Hrun|Hrun] Hfail.
  - apply create_paths in Hrun; [|exact Hwf].
    destruct Hrun as [Hfull Hr Hf Ht Hq Hb
                     |i fd Hlow Hfd Hneg Hr Hf Ht Hq Hb
                     |i fd evs Hlow Hfd Hpos Hr Hf Ht Hsf Hin
                     |i fd flags ok Hlow Hfd Hpos Hflags Hok Hr Hf Ht Hq Hb].
    + rewrite (new_events_app s s' []) in Hfail by exact Ht. discriminate.
    + rewrite (new_events_app s s' _ Ht) in Hfail. discriminate.
    + split; [exact Hr|]. exists i, fd. destruct Hlow as [Hi _].
      rewrite Hf. split; [exact Hi|]. split; [eapply slot_insert_eq; exact Hi|].
      unfold FREE. lia.
    + rewrite (new_events_app s s' _ Ht) in Hfail. cbn in Hfail.
      destruct (Z.ltb_spec ok 0); [lia|].
      destruct (Z.ltb_spec flags 0); [lia|]. discriminate.
  - apply accept_paths in Hrun; [|exact Hwf].
    destruct Hrun as [Hinv Hr Hf Ht Hq Hb
                     |Hval Hfull Hr Hf Ht Hq Hb
                     |lfd i fd Hs Hlfd Hlow Hfd Hneg Hr Hf Ht Hq Hb
                     |lfd i fd evs Hs Hlfd Hlow Hfd Hpos Hr Hf Ht Hsf Hnc Hin
                     |lfd i fd flags ok a1 a2 addr lenb Hs Hlfd Hlow Hfd Hpos
                        Hflags Hok Hr Hf Ht Hq Hb].
    + rewrite (new_events_app s s' []) in Hfail by exact Ht. discriminate.
    + rewrite (new_events_app s s' []) in Hfail by exact Ht. discriminate.
    + rewrite (new_events_app s s' _ Ht) in Hfail. discriminate.
    + split; [exact Hr|]. exists i, fd. destruct Hlow as [Hi _].
      rewrite Hf. split; [exact Hi|]. split; [eapply slot_insert_eq; exact Hi|].
      unfold FREE. lia.
    + rewrite (new_events_app s s' _ Ht) in Hfail. cbn in Hfail.
      destruct (Z.ltb_spec ok 0); [lia|].
      destruct (Z.ltb_spec flags 0); [lia|]. discriminate.
Qed.

(** C10 (the code departs from the claim).  In [qc_handle_socket] and
    [qc_handle_accept] the subscripts applied to [fds] stay inside
    [0, MAX_FD_COUNT) on every run in which non-blocking setup does not
    fail; on a run in which it fails, the cleanup statements subscript
    [fds] with -1. *)
Theorem setup_failure_subscripts_minus_one
    (domain type protocol sckt g_addr g_addrlen r : Z) (s s' : State) :
  wf s ->
  qc_handle_socket world domain type protocol s = (r, s')
  \/ qc_handle_accept world sckt g_addr g_addrlen s = (r, s') ->
  (setup_failed (new_events s s') = true ->
     In (-1) (new_touched s s') /\ ~ in_bounds (new_touched s s'))
  /\ (setup_failed (new_events s s') = false ->
     in_bounds (new_touched s s')).
Proof.
  intros Hwf Hrun.
  assert (Hout : In (-1) (new_touched s s') -> ~ in_bounds (new_touched s s')).
  { intros Hin Hb. unfold in_bounds in Hb. rewrite Forall_forall in Hb.
    apply list_elem_of_In, Hb in Hin. lia. }
  destruct Hrun as [Hrun|Hrun].
  - apply create_paths in Hrun; [|exact Hwf].
    destruct Hrun as [Hfull Hr Hf Ht Hq Hb
                     |i fd Hlow Hfd Hneg Hr Hf Ht Hq Hb
                     |i fd evs Hlow Hfd Hpos Hr Hf Ht Hsf Hin
                     |i fd flags ok Hlow Hfd Hpos Hflags Hok Hr Hf Ht Hq Hb].
    + rewrite (new_events_app s s' []) by exact Ht. split; [discriminate|auto].
    + rewrite (new_events_app s s' _ Ht). split; [discriminate|auto].
    + rewrite (new_events_app s s' _ Ht).
      unfold setup_failed in *. rewrite existsb_app, Hsf. cbn.
      split; [auto|discriminate].
    + rewrite (new_events_app s s' _ Ht). split; [|auto]. cbn.
      destruct (Z.ltb_spec ok 0); [lia|].
      destruct (Z.ltb_spec flags 0); [lia|]. discriminate.
  - apply accept_paths in Hrun; [|exact Hwf].
    destruct Hrun as [Hinv Hr Hf Ht Hq Hb
                     |Hval Hfull Hr Hf Ht Hq Hb
                     |lfd i fd Hs Hlfd Hlow Hfd Hneg Hr Hf Ht Hq Hb
                     |lfd i fd evs Hs Hlfd Hlow Hfd Hpos Hr Hf Ht Hsf Hnc Hin
                     |lfd i fd flags ok a1 a2 addr lenb Hs Hlfd Hlow Hfd Hpos
                        Hflags Hok Hr Hf Ht Hq Hb].
    + rewrite (new_events_app s s' []) by exact Ht. split; [discriminate|auto].
    + rewrite (new_events_app s s' []) by exact Ht. split; [discriminate|auto].
    + rewrite (new_events_app s s' _ Ht). split; [discriminate|auto].
    + rewrite (new_events_app s s' _ Ht).
      unfold setup_failed in *. rewrite existsb_app, Hsf. cbn.
      split; [auto|discriminate].
    + rewrite (new_events_app s s' _ Ht). split; [|auto]. cbn.
      destruct (Z.ltb_spec ok 0); [lia|].
      destruct (Z.ltb_spec flags 0); [lia|]. discriminate.
Qed.

(** C6.  A non-negative handle returned by [qc_handle_socket] or
    [qc_handle_accept] names a slot holding the descriptor the host has
    just handed out, and during the same call [fcntl(F_SETFL)] was issued
    on that descriptor with the O_NONBLOCK bits set and returned success;
    no [fcntl] of the call failed.  Hence no handle is returned when the
    setup fails. *)
Theorem returned_handle_is_non_blocking
    (domain type protocol sckt g_addr g_addrlen r : Z) (s s' : State) :
  wf s ->
  qc_handle_socket world domain type protocol s = (r, s')
  \/ qc_handle_accept world sckt g_addr g_addrlen s = (r, s') ->
  0 <= r ->
  exists fd flags ok,
    slot (fds s') r = Some fd /\ 0 <= fd
    /\ (In (Ev (c_socket domain type protocol) fd) (new_events s s')
        \/ exists lfd, In (Ev (c_accept lfd) fd) (new_events s s'))
    /\ In (Ev (c_fcntl_setfl fd (Z.lor flags O_NONBLOCK)) ok) (new_events s s')
    /\ 0 <= ok
    /\ Z.land (Z.lor flags O_NONBLOCK) O_NONBLOCK = O_NONBLOCK
    /\ setup_failed (new_events s s') = false.
Proof.
  intros Hwf [Hrun|Hrun] Hr0.
  - apply create_paths in Hrun; [|exact Hwf].
    destruct Hrun as [Hfull Hr Hf Ht Hq Hb
                     |i fd Hlow Hfd Hneg Hr Hf Ht Hq Hb
                     |i fd evs Hlow Hfd Hpos Hr Hf Ht Hsf Hin
                     |i fd flags ok Hlow Hfd Hpos Hflags Hok Hr Hf Ht Hq Hb];
      try lia.
    subst r. destruct Hlow as [Hi _].
    exists fd, flags, ok. rewrite (new_events_app s s' _ Ht), Hf.
    split; [eapply slot_insert_eq; exact Hi|].
    split; [exact Hpos|].
    split; [left; cbn; auto|].
    split; [cbn; auto|].
    split; [exact Hok|].
    split; [apply lor_keeps_bits|].
    cbn. destruct (Z.ltb_spec ok 0); [lia|].
    destruct (Z.ltb_spec flags 0); [lia|]. reflexivity.
  - apply accept_paths in Hrun; [|exact Hwf].
    destruct Hrun as [Hinv Hr Hf Ht Hq Hb
                     |Hval Hfull Hr Hf Ht Hq Hb
                     |lfd i fd Hs Hlfd Hlow Hfd Hneg Hr Hf Ht Hq Hb
                     |lfd i fd evs Hs Hlfd Hlow Hfd Hpos Hr Hf Ht Hsf Hnc Hin
                     |lfd i fd flags ok a1 a2 addr lenb Hs Hlfd Hlow Hfd Hpos
                        Hflags Hok Hr Hf Ht Hq Hb];
      try lia.
    subst r. destruct Hlow as [Hi _].
    exists fd, flags, ok. rewrite (new_events_app s s' _ Ht), Hf.
    split; [eapply slot_insert_eq; exact Hi|].
    split; [exact Hpos|].
    split; [right; exists lfd; cbn; auto 10|].
    split; [cbn; auto|].
    split; [exact Hok|].
    split; [apply lor_keeps_bits|].
    cbn. destruct (Z.ltb_spec ok 0); [lia|].
    destruct (Z.ltb_spec flags 0); [lia|]. reflexivity.
Qed.

(** C5.  A handle outside [0, MAX_FD_COUNT), or one whose slot is free,
    makes each of accept, bind, connect, listen, send and recv return -1
    with the invalid-descriptor code in the error cell, without any call
    to the host or to guest memory and without touching the table. *)
Theorem invalid_handle_is_turned_away
    (sckt g_addr g_addrlen addrlen backlog g_buffer length flags : Z)
    (s : State) :
  wf s -> invalid_fd s sckt ->
  quiet (qc_handle_accept world sckt g_addr g_addrlen s) (-1) ENOTSOCK s
  /\ quiet (qc_handle_bind world sckt g_addr addrlen s) (-1) ENOTSOCK s
  /\ quiet (qc_handle_connect world sckt g_addr addrlen s) (-1) ENOTSOCK s
  /\ quiet (qc_handle_listen world sckt backlog s) (-1) ENOTSOCK s
  /\ quiet (qc_handle_send world sckt g_buffer length flags s) (-1) ENOTSOCK s
  /\ quiet (qc_handle_recv world sckt g_buffer length flags s) (-1) ENOTSOCK s.
Proof.
  intros Hwf Hinv.
  repeat split; apply VERIFY_FD_rejects; assumption.
Qed.

(** C2 (the code departs from the claim).  [qc_handle_bind] and
    [qc_handle_connect], given a handle that passes the gate and an
    [addrlen] above [sizeof(struct sockaddr_in)], put ENOMEM in the error
    cell and make no call to the host or to guest memory, but the value
    they return is 0, not a negative one. *)
Theorem oversize_addrlen_returns_zero
    (sckt g_addr addrlen : Z) (s : State) :
  wf s -> valid_fd s sckt -> sizeof_sockaddr_in < addrlen ->
  quiet (qc_handle_bind world sckt g_addr addrlen s) 0 ENOMEM s
  /\ quiet (qc_handle_connect world sckt g_addr addrlen s) 0 ENOMEM s.
Proof.
  intros Hwf Hval Hbig.
  rewrite qc_handle_bind_oversize, qc_handle_connect_oversize by assumption.
  unfold quiet. cbn. auto 10.
Qed.

(** C7.  [qc_handle_send] and [qc_handle_recv], given a [length] above
    MAX_BUF_SIZE, return -1 without any call to the host or to guest
    memory and without touching the table; for a handle that passes the
    gate the error cell then holds ENOMEM, the oversize code. *)
Theorem oversize_length_is_refused
    (sckt g_buffer length flags : Z) (s : State) :
  wf s -> MAX_BUF_SIZE < length ->
  (fst (qc_handle_send world sckt g_buffer length flags s) = -1
   /\ new_events s (snd (qc_handle_send world sckt g_buffer length flags s)) = []
   /\ trace (snd (qc_handle_send world sckt g_buffer length flags s)) = trace s
   /\ fds (snd (qc_handle_send world sckt g_buffer length flags s)) = fds s)
  /\ (fst (qc_handle_recv world sckt g_buffer length flags s) = -1
   /\ new_events s (snd (qc_handle_recv world sckt g_buffer length flags s)) = []
   /\ trace (snd (qc_handle_recv world sckt g_buffer length flags s)) = trace s
   /\ fds (snd (qc_handle_recv world sckt g_buffer length flags s)) = fds s)
  /\ (valid_fd s sckt ->
      qemu_errno (snd (qc_handle_send world sckt g_buffer length flags s)) = ENOMEM
      /\ qemu_errno (snd (qc_handle_recv world sckt g_buffer length flags s))
         = ENOMEM).
Proof.
  intros Hwf Hbig.
  destruct (valid_or_invalid s sckt Hwf) as [Hval|Hinv].
  - rewrite qc_handle_send_oversize, qc_handle_recv_oversize by assumption.
    cbn. rewrite (new_events_app s (with_qemu_errno ENOMEM (touch sckt s)) [])
      by reflexivity.
    auto 10.
  - assert (Hs : quiet (qc_handle_send world sckt g_buffer length flags s)
                   (-1) ENOTSOCK s) by (apply VERIFY_FD_rejects; assumption).
    assert (Hr : quiet (qc_handle_recv world sckt g_buffer length flags s)
                   (-1) ENOTSOCK s) by (apply VERIFY_FD_rejects; assumption).
    destruct Hs as (Hs1 & _ & Hs3 & _ & Hs5).
    destruct Hr as (Hr1 & _ & Hr3 & _ & Hr5).
    rewrite (new_events_app s _ [] Hs5), (new_events_app s _ [] Hr5).
    split; [auto|]. split; [auto|].
    intros Hval. destruct (valid_not_invalid s sckt Hwf Hval Hinv).
Qed.

(** C4 (amended).  When the host's [recv] returns a value [n <= 0],
    [qc_handle_recv] copies the host's errno into the error cell, makes
    no copy to guest memory, and returns [n] itself: a negative value
    when the host reported an error, 0 when it returned 0. *)
Theorem recv_passes_on_empty_result
    (sckt g_buffer length flags fd n r : Z) (s s' : State) :
  wf s ->
  slot (fds s) sckt = Some fd -> fd <> FREE ->
  length <= MAX_BUF_SIZE ->
  n = int64 (r_val (world (trace s) (c_recv fd length flags))) ->
  INT_MIN <= n <= 0 ->
  qc_handle_recv world sckt g_buffer length flags s = (r, s') ->
  r = n
  /\ new_events s s' = [Ev (c_recv fd length flags) n]
  /\ fds s' = fds s
  /\ qemu_errno s' = errno s'
  /\ (n < 0 ->
      qemu_errno s'
      = int32 (r_errno (world (trace s) (c_recv fd length flags)))).
Proof.
  intros Hwf Hs Hfd Hlen Hn Hrange Hrun.
  assert (Hval : valid_fd s sckt) by (exists fd; auto).
  apply recv_paths in Hrun; [|exact Hwf].
  destruct Hrun as [Hinv Hr Hf Ht Hq
                   |_ Hbig Hr Hf Ht Hq
                   |fd' n' Hs' _ _ Hn' Hr Hle Hf Ht Hq Hneg Hpos
                   |fd' n' ack Hs' _ _ Hn' Hr Hgt Hf Ht Hq].
  - destruct (valid_not_invalid s sckt Hwf Hval Hinv).
  - lia.
  - rewrite Hs in Hs'. injection Hs' as <-. subst n'.
    rewrite <- Hn in *. rewrite int32_id in Hr by (unfold INT_MAX; lia).
    rewrite (new_events_app s s' _ Ht).
    repeat split; auto. intros Hlt. rewrite Hq. auto.
  - rewrite Hs in Hs'. injection Hs' as <-. subst n'.
    rewrite <- Hn in *. rewrite int32_id in Hr by (unfold INT_MAX; lia). lia.
Qed.


(** C9.  [find_free_socket] returns the lowest free subscript and leaves
    the table as it is; on a full table it returns -1, again leaving the
    table as it is.  A successful create stores the new descriptor in that
    lowest free slot and changes no other slot; on a full table create
    fails and the table is unchanged.  Hence, on a host whose calls
    succeed, MAX_FD_COUNT creates in a row from the empty table return
    0, 1, ..., MAX_FD_COUNT-1 and the next one fails; and once a handle
    below every free slot is released, the next create returns it. *)
Theorem allocation_is_lowest_first
    (domain type protocol : Z) (s : State) :
  wf s ->
  (forall i, lowest_free (fds s) i ->
     fst (find_free_socket world s) = i
     /\ fds (snd (find_free_socket world s)) = fds s)
  /\ (full (fds s) ->
      fst (find_free_socket world s) = -1
      /\ fds (snd (find_free_socket world s)) = fds s)
  /\ (forall r s',
      qc_handle_socket world domain type protocol s = (r, s') -> 0 <= r ->
      lowest_free (fds s) r
      /\ exists fd, 0 <= fd /\ fds s' = <[Z.to_nat r := fd]> (fds s))
  /\ (full (fds s) ->
      fst (qc_handle_socket world domain type protocol s) = -1
      /\ fds (snd (qc_handle_socket world domain type protocol s)) = fds s)
  /\ (cooperative world ->
      (fds s = replicate (Z.to_nat MAX_FD_COUNT) FREE ->
       let run := creates world domain type protocol (Z.to_nat MAX_FD_COUNT) s in
       fst run = Zrange 0 (Z.to_nat MAX_FD_COUNT)
       /\ fst (qc_handle_socket world domain type protocol (snd run)) = -1
       /\ fds (snd (qc_handle_socket world domain type protocol (snd run)))
          = fds (snd run))
      /\ (forall h,
          valid_fd s h ->
          (forall j, 0 <= j < h -> slot (fds s) j <> Some FREE) ->
          fst (qc_handle_socket world domain type protocol (release h s)) = h)).
Proof.
  intros Hwf.
  split.
  { intros i Hlow. rewrite (find_free_socket_found world s i Hwf Hlow).
    cbn. auto. }
  split.
  { intros Hfull. rewrite (find_free_socket_full world s Hwf Hfull).
    cbn. auto. }
  split.
  { intros r s' Hrun Hr0. apply create_paths in Hrun; [|exact Hwf].
    destruct Hrun as [Hfull Hr Hf Ht Hq Hb
                     |i fd Hlow Hfd Hneg Hr Hf Ht Hq Hb
                     |i fd evs Hlow Hfd Hpos Hr Hf Ht Hsf Hin
                     |i fd flags ok Hlow Hfd Hpos Hflags Hok Hr Hf Ht Hq Hb];
      try lia.
    subst r. split; [exact Hlow|]. exists fd. auto. }
  split.
  { intros Hfull.
    rewrite (qc_handle_socket_full world domain type protocol s Hwf Hfull).
    cbn. auto. }
  intros Hco. split.
  - intros Hempty run.
    assert (Hmax : 0 <= MAX_FD_COUNT).
    { unfold wf in Hwf. lia. }
    destruct (creates_in_order world domain type protocol
                (Z.to_nat MAX_FD_COUNT) 0 s Hco Hwf) as (Hrs & Hwf' & Hown);
      try lia.
    { intros j Hj. rewrite Hempty. apply slot_replicate. lia. }
    fold run in Hrs, Hwf', Hown.
    split; [exact Hrs|].
    assert (Hfull : full (fds (snd run))).
    { apply full_by_range. intros j Hj. apply Hown.
      unfold wf in Hwf'. lia. }
    rewrite (qc_handle_socket_full world domain type protocol _ Hwf' Hfull).
    cbn. auto.
  - intros h Hval Hown.
    destruct (qc_handle_socket_cooperative world domain type protocol
                (release h s) h Hco (release_wf h s Hwf)
                (release_lowest h s Hval Hown)) as (fd & s' & Hrun & _).
    rewrite Hrun. reflexivity.
Qed.

End Claims.

(** * Further properties of the handlers *)

(** ** listen, bind, connect and send, case by case *)

Section Calls.

Context `{P : Platform}.
Variable world : list Event -> Call -> Reply.

Lemma valid_in_bounds (s : State) (sckt fd : Z) :
  wf s -> slot (fds s) sckt = Some fd -> 0 <= sckt < MAX_FD_COUNT.
Proof.
  intros Hwf Hs. pose proof (slot_range _ _ _ Hs). unfold wf in Hwf. lia.
Qed.

Lemma in_bounds_two (sckt : Z) :
  0 <= sckt < MAX_FD_COUNT -> in_bounds [sckt; sckt].
Proof. intros Hb. repeat constructor; lia. Qed.

(** A handle turned away by the gate, for any body. *)
Lemma gate_turns_away (sckt : Z) (body : M Z) (s s' : State) (r : Z) :
  wf s -> invalid_fd s sckt ->
  VERIFY_FD world sckt body s = (r, s') ->
  r = -1 /\ qemu_errno s' = ENOTSOCK /\ fds s' = fds s
  /\ errno s' = errno s /\ trace s' = trace s
  /\ in_bounds (new_touched s s').
Proof.
  intros Hwf Hinv Hrun.
  destruct (VERIFY_FD_invalid world sckt body s Hwf Hinv)
    as (s0 & Heq & Hq & Hf & He & Ht & Hb).
  rewrite Heq in Hrun. injection Hrun as <- <-. auto 10.
Qed.

Lemma listen_cases (sckt backlog r : Z) (s s' : State) :
  wf s ->
  qc_handle_listen world sckt backlog s = (r, s') ->
  (invalid_fd s sckt /\ r = -1 /\ qemu_errno s' = ENOTSOCK
   /\ fds s' = fds s /\ trace s' = trace s
   /\ in_bounds (new_touched s s'))
  \/ (exists fd,
        slot (fds s) sckt = Some fd /\ fd <> FREE
        /\ r = int32 (r_val (world (trace s) (c_listen fd backlog)))
        /\ trace s' = [Ev (c_listen fd backlog) r] ++ trace s
        /\ fds s' = fds s
        /\ new_touched s s' = [sckt; sckt]
        /\ (r < 0 ->
            qemu_errno s'
            = int32 (r_errno (world (trace s) (c_listen fd backlog))))
        /\ (0 <= r -> qemu_errno s' = qemu_errno s)).
Proof.
  intros Hwf Hrun. unfold qc_handle_listen in Hrun.
  destruct (valid_or_invalid s sckt Hwf) as [(fd & Hs & Hfd)|Hinv].
  2:{ left. apply gate_turns_away in Hrun; [|assumption|assumption].
      destruct Hrun as (Hr & Hq & Hf & _ & Ht & Hb). auto 10. }
  right. exists fd.
  rewrite (VERIFY_FD_valid world sckt fd) in Hrun by assumption.
  unfold bind at 1 in Hrun.
  rewrite (fds_load_in world sckt fd) in Hrun by exact Hs.
  unfold bind at 1 in Hrun.
  destruct (host_int world _ _) as [v s1] eqn:Hhost.
  apply host_int_inv in Hhost as (Hv & Hf1 & Hq1 & Ht1 & Hto1 & Hpos & Hneg).
  cbn in Hv, Hf1, Hq1, Ht1, Hto1, Hpos, Hneg.
  destruct (Z.ltb_spec v 0) as [Hlt|Hge].
  - injection Hrun as <- <-.
    rewrite (new_touched_app s _ [sckt; sckt]) by (cbn; rewrite Hto1; reflexivity).
    cbn. rewrite Hf1, Ht1. repeat split; auto; try lia.
  - injection Hrun as <- <-.
    rewrite (new_touched_app s _ [sckt; sckt]) by (rewrite Hto1; reflexivity).
    rewrite Hf1, Ht1, Hq1. repeat split; auto; try lia.
Qed.

(** The common course of [qc_handle_bind] and [qc_handle_connect]. *)
Ltac addr_cases Hwf Hrun :=
  match type of Hrun with
  | VERIFY_FD ?world ?sckt _ ?s = _ =>
      let fd := fresh "fd" in
      let Hs := fresh "Hs" in
      let Hfd := fresh "Hfd" in
      let Hinv := fresh "Hinv" in
      destruct (valid_or_invalid s sckt Hwf) as [(fd & Hs & Hfd)|Hinv];
      [ right;
        rewrite (VERIFY_FD_valid world sckt fd) in Hrun by assumption;
        match type of Hrun with
        | context [?a >? ?b] => destruct (Z.gtb_spec a b)
        end;
        [ left; injection Hrun as <- <-;
          rewrite (new_touched_app s _ [sckt]) by reflexivity;
          cbn; repeat split; auto; exists fd; auto
        | right;
          unfold bind at 1 in Hrun; unfold cpu_memory_rw_debug_read in Hrun;
          unfold bind at 1 in Hrun;
          rewrite (fds_load_in world sckt fd) in Hrun by exact Hs;
          unfold bind at 1 in Hrun;
          let v := fresh "v" in
          let s1 := fresh "s1" in
          let Hhost := fresh "Hhost" in
          destruct (host_int world _ _) as [v s1] eqn:Hhost;
          apply host_int_inv in Hhost
            as (Hv & Hf1 & Hq1 & Ht1 & Hto1 & Hpos & Hneg);
          cbn in Hv, Hf1, Hq1, Ht1, Hto1, Hpos, Hneg;
          eexists fd, _;
          destruct (Z.ltb_spec v 0);
          [ injection Hrun as <- <-;
            rewrite (new_touched_app s _ [sckt; sckt])
              by (cbn; rewrite Hto1; reflexivity);
            cbn; rewrite Hf1, Ht1;
            repeat split; auto; try lia
          | unfold bind, cpu_memory_rw_debug_write, ret in Hrun;
            injection Hrun as <- <-;
            rewrite (new_touched_app s _ [sckt; sckt])
              by (cbn; rewrite Hto1; reflexivity);
            cbn; rewrite Hf1, Ht1, Hq1;
            repeat split; auto; try lia; eexists; reflexivity ] ]
      | left; apply gate_turns_away in Hrun; [|assumption|assumption];
        destruct Hrun as (Hr & Hq & Hf & _ & Ht & Hb); auto 10 ]
  end.

Lemma bind_cases (sckt g_addr addrlen r : Z) (s s' : State) :
  wf s ->
  qc_handle_bind world sckt g_addr addrlen s = (r, s') ->
  (invalid_fd s sckt /\ r = -1 /\ qemu_errno s' = ENOTSOCK
   /\ fds s' = fds s /\ trace s' = trace s
   /\ in_bounds (new_touched s s'))
  \/ (valid_fd s sckt /\ sizeof_sockaddr_in < addrlen
      /\ r = 0 /\ qemu_errno s' = ENOMEM
      /\ fds s' = fds s /\ trace s' = trace s
      /\ new_touched s s' = [sckt])
  \/ (exists fd ack,
        let addr :=
          r_data (world (trace s) (c_mem_read g_addr sizeof_sockaddr_in)) in
        let h1 := Ev (c_mem_read g_addr sizeof_sockaddr_in) ack :: trace s in
        slot (fds s) sckt = Some fd /\ fd <> FREE
        /\ addrlen <= sizeof_sockaddr_in
        /\ r = int32 (r_val (world h1 (c_bind fd addr addrlen)))
        /\ fds s' = fds s
        /\ new_touched s s' = [sckt; sckt]
        /\ (r < 0 ->
            trace s' = Ev (c_bind fd addr addrlen) r :: h1
            /\ qemu_errno s'
               = int32 (r_errno (world h1 (c_bind fd addr addrlen))))
        /\ (0 <= r ->
            qemu_errno s' = qemu_errno s
            /\ exists ack2,
                 trace s'
                 = Ev (c_mem_write g_addr addr sizeof_sockaddr_in) ack2
                   :: Ev (c_bind fd addr addrlen) r :: h1)).
Proof.
  intros Hwf Hrun. unfold qc_handle_bind in Hrun. addr_cases Hwf Hrun.
Qed.

Lemma connect_cases (sckt g_addr addrlen r : Z) (s s' : State) :
  wf s ->
  qc_handle_connect world sckt g_addr addrlen s = (r, s') ->
  (invalid_fd s sckt /\ r = -1 /\ qemu_errno s' = ENOTSOCK
   /\ fds s' = fds s /\ trace s' = trace s
   /\ in_bounds (new_touched s s'))
  \/ (valid_fd s sckt /\ sizeof_sockaddr_in < addrlen
      /\ r = 0 /\ qemu_errno s' = ENOMEM
      /\ fds s' = fds s /\ trace s' = trace s
      /\ new_touched s s' = [sckt])
  \/ (exists fd ack,
        let addr :=
          r_data (world (trace s) (c_mem_read g_addr sizeof_sockaddr_in)) in
        let h1 := Ev (c_mem_read g_addr sizeof_sockaddr_in) ack :: trace s in
        slot (fds s) sckt = Some fd /\ fd <> FREE
        /\ addrlen <= sizeof_sockaddr_in
        /\ r = int32 (r_val (world h1 (c_connect fd addr addrlen)))
        /\ fds s' = fds s
        /\ new_touched s s' = [sckt; sckt]
        /\ (r < 0 ->
            trace s' = Ev (c_connect fd addr addrlen) r :: h1
            /\ qemu_errno s'
               = int32 (r_errno (world h1 (c_connect fd addr addrlen))))
        /\ (0 <= r ->
            qemu_errno s' = qemu_errno s
            /\ exists ack2,
                 trace s'
                 = Ev (c_mem_write g_addr addr sizeof_sockaddr_in) ack2
                   :: Ev (c_connect fd addr addrlen) r :: h1)).
Proof.
  intros Hwf Hrun. unfold qc_handle_connect in Hrun. addr_cases Hwf Hrun.
Qed.

Lemma send_cases (sckt g_buffer length flags r : Z) (s s' : State) :
  wf s ->
  qc_handle_send world sckt g_buffer length flags s = (r, s') ->
  (invalid_fd s sckt /\ r = -1 /\ qemu_errno s' = ENOTSOCK
   /\ fds s' = fds s /\ trace s' = trace s
   /\ in_bounds (new_touched s s'))
  \/ (valid_fd s sckt /\ MAX_BUF_SIZE < length
      /\ r = -1 /\ qemu_errno s' = ENOMEM
      /\ fds s' = fds s /\ trace s' = trace s
      /\ new_touched s s' = [sckt])
  \/ (exists fd ack n,
        let buffer := r_data (world (trace s) (c_mem_read g_buffer length)) in
        let h1 := Ev (c_mem_read g_buffer length) ack :: trace s in
        slot (fds s) sckt = Some fd /\ fd <> FREE
        /\ length <= MAX_BUF_SIZE
        /\ n = int64 (r_val (world h1 (c_send fd buffer length flags)))
        /\ r = int32 n
        /\ trace s' = Ev (c_send fd buffer length flags) n :: h1
        /\ fds s' = fds s
        /\ new_touched s s' = [sckt; sckt]
        /\ (r < 0 -> qemu_errno s' = errno s')
        /\ (0 <= r -> qemu_errno s' = qemu_errno s)
        /\ (n < 0 ->
            errno s'
            = int32 (r_errno (world h1 (c_send fd buffer length flags))))).
Proof.
  intros Hwf Hrun. unfold qc_handle_send in Hrun.
  destruct (valid_or_invalid s sckt Hwf) as [(fd & Hs & Hfd)|Hinv].
  2:{ left. apply gate_turns_away in Hrun; [|assumption|assumption].
      destruct Hrun as (Hr & Hq & Hf & _ & Ht & Hb). auto 10. }
  right. rewrite (VERIFY_FD_valid world sckt fd) in Hrun by assumption.
  destruct (Z.gtb_spec length MAX_BUF_SIZE) as [Hbig|Hsmall].
  { left. injection Hrun as <- <-.
    rewrite (new_touched_app s _ [sckt]) by reflexivity.
    cbn. repeat split; auto. exists fd. auto. }
  right.
  unfold bind at 1 in Hrun. unfold cpu_memory_rw_debug_read in Hrun.
  unfold bind at 1 in Hrun.
  rewrite (fds_load_in world sckt fd) in Hrun by exact Hs.
  unfold bind at 1 in Hrun.
  destruct (host_ssize world _ _) as [[n data] s1] eqn:Hhost.
  apply host_ssize_inv in Hhost
    as (Hn & _ & Hf1 & Hq1 & Ht1 & Hto1 & Hpos & Hneg).
  cbn in Hn, Hf1, Hq1, Ht1, Hto1, Hpos, Hneg, Hrun.
  eexists fd, _, n.
  destruct (Z.ltb_spec (int32 n) 0) as [Hlt|Hge].
  - injection Hrun as <- <-.
    rewrite (new_touched_app s _ [sckt; sckt])
      by (cbn; rewrite Hto1; reflexivity).
    cbn. rewrite Hf1, Ht1. repeat split; auto; try lia.
  - injection Hrun as <- <-.
    rewrite (new_touched_app s _ [sckt; sckt])
      by (rewrite Hto1; reflexivity).
    rewrite Hf1, Ht1, Hq1. repeat split; auto; try lia.
Qed.

(** [qc_handle_recv] leaves the table alone and stays inside it. *)
Lemma recv_keeps_table (sckt g_buffer length flags r : Z) (s s' : State) :
  wf s ->
  qc_handle_recv world sckt g_buffer length flags s = (r, s') ->
  fds s' = fds s /\ in_bounds (new_touched s s').
Proof.
  intros Hwf Hrun. unfold qc_handle_recv in Hrun.
  destruct (valid_or_invalid s sckt Hwf) as [(fd & Hs & Hfd)|Hinv].
  2:{ apply gate_turns_away in Hrun; [|assumption|assumption].
      destruct Hrun as (Hr & Hq & Hf & _ & Ht & Hb). auto. }
  pose proof (valid_in_bounds s sckt fd Hwf Hs) as Hb.
  rewrite (VERIFY_FD_valid world sckt fd) in Hrun by assumption.
  destruct (Z.gtb_spec length MAX_BUF_SIZE) as [Hbig|Hsmall].
  { injection Hrun as <- <-.
    rewrite (new_touched_app s _ [sckt]) by reflexivity.
    split; [reflexivity|]. repeat constructor; lia. }
  unfold bind at 1 in Hrun.
  rewrite (fds_load_in world sckt fd) in Hrun by exact Hs.
  unfold bind at 1 in Hrun.
  destruct (host_ssize world _ _) as [[n data] s1] eqn:Hhost.
  apply host_ssize_inv in Hhost
    as (Hn & _ & Hf1 & Hq1 & Ht1 & Hto1 & Hpos & Hneg).
  cbn in Hn, Hf1, Hq1, Ht1, Hto1, Hpos, Hneg, Hrun.
  destruct (Z.leb_spec (int32 n) 0) as [Hle|Hgt].
  - injection Hrun as <- <-.
    rewrite (new_touched_app s _ [sckt; sckt])
      by (cbn; rewrite Hto1; reflexivity).
    cbn. rewrite Hf1. split; [reflexivity|apply in_bounds_two; exact Hb].
  - unfold bind, cpu_memory_rw_debug_write, ret in Hrun.
    injection Hrun as <- <-.
    rewrite (new_touched_app s _ [sckt; sckt])
      by (cbn; rewrite Hto1; reflexivity).
    cbn. rewrite Hf1. split; [reflexivity|apply in_bounds_two; exact Hb].
Qed.

End Calls.

(** ** The table across handler calls *)

Section Table.

Context `{P : Platform}.
Variable world : list Event -> Call -> Reply.

Lemma plain_table (sckt x y z r : Z) (s s' : State) :
  wf s ->
  qc_handle_bind world sckt x y s = (r, s')
  \/ qc_handle_connect world sckt x y s = (r, s')
  \/ qc_handle_listen world sckt x s = (r, s')
  \/ qc_handle_send world sckt x y z s = (r, s')
  \/ qc_handle_recv world sckt x y z s = (r, s') ->
  fds s' = fds s /\ in_bounds (new_touched s s').
Proof.
  intros Hwf [Hrun|[Hrun|[Hrun|[Hrun|Hrun]]]].
  - apply bind_cases in Hrun; [|exact Hwf].
    destruct Hrun as [(_ & _ & _ & Hf & _ & Hb)
                     |[((fd & Hs & _) & _ & _ & _ & Hf & _ & Hto)
                      |(fd & ack & Hs & _ & _ & _ & Hf & Hto & _)]];
      try (split; [exact Hf|exact Hb]);
      pose proof (valid_in_bounds s sckt fd Hwf Hs);
      rewrite Hto; split; auto; repeat constructor; lia.
  - apply connect_cases in Hrun; [|exact Hwf].
    destruct Hrun as [(_ & _ & _ & Hf & _ & Hb)
                     |[((fd & Hs & _) & _ & _ & _ & Hf & _ & Hto)
                      |(fd & ack & Hs & _ & _ & _ & Hf & Hto & _)]];
      try (split; [exact Hf|exact Hb]);
      pose proof (valid_in_bounds s sckt fd Hwf Hs);
      rewrite Hto; split; auto; repeat constructor; lia.
  - apply listen_cases in Hrun; [|exact Hwf].
    destruct Hrun as [(_ & _ & _ & Hf & _ & Hb)
                     |(fd & Hs & _ & _ & _ & Hf & Hto & _)];
      try (split; [exact Hf|exact Hb]).
    pose proof (valid_in_bounds s sckt fd Hwf Hs).
    rewrite Hto. split; auto. repeat constructor; lia.
  - apply send_cases in Hrun; [|exact Hwf].
    destruct Hrun as [(_ & _ & _ & Hf & _ & Hb)
                     |[((fd & Hs & _) & _ & _ & _ & Hf & _ & Hto)
                      |(fd & ack & n & Hs & _ & _ & _ & _ & _ & Hf & Hto & _)]];
      try (split; [exact Hf|exact Hb]);
      pose proof (valid_in_bounds s sckt fd Hwf Hs);
      rewrite Hto; split; auto; repeat constructor; lia.
  - eapply recv_keeps_table; eauto.
Qed.

(** X1.  [qc_handle_bind], [qc_handle_connect], [qc_handle_listen],
    [qc_handle_send] and [qc_handle_recv] never write the descriptor
    table, and every subscript they apply to it lies inside the array,
    whatever the handle, the other arguments and the environment. *)
Theorem plain_handlers_keep_table
    (sckt x y z r : Z) (s s' : State) :
  wf s ->
  qc_handle_bind world sckt x y s = (r, s')
  \/ qc_handle_connect world sckt x y s = (r, s')
  \/ qc_handle_listen world sckt x s = (r, s')
  \/ qc_handle_send world sckt x y z s = (r, s')
  \/ qc_handle_recv world sckt x y z s = (r, s') ->
  fds s' = fds s /\ in_bounds (new_touched s s').
Proof. apply plain_table. Qed.

Lemma create_table_step (domain type protocol r : Z) (s s' : State) :
  wf s ->
  qc_handle_socket world domain type protocol s = (r, s') ->
  fds s' = fds s
  \/ exists i fd, slot (fds s) i = Some FREE
       /\ fds s' = <[Z.to_nat i := fd]> (fds s).
Proof.
  intros Hwf Hrun. apply create_paths in Hrun; [|exact Hwf].
  destruct Hrun as [Hfull Hr Hf Ht Hq Hb
                   |i fd Hlow Hfd Hneg Hr Hf Ht Hq Hb
                   |i fd evs Hlow Hfd Hpos Hr Hf Ht Hsf Hin
                   |i fd flags ok Hlow Hfd Hpos Hflags Hok Hr Hf Ht Hq Hb];
    [left; exact Hf|right; exists i, fd; destruct Hlow; auto ..].
Qed.

Lemma accept_table_step (sckt g_addr g_addrlen r : Z) (s s' : State) :
  wf s ->
  qc_handle_accept world sckt g_addr g_addrlen s = (r, s') ->
  fds s' = fds s
  \/ exists i fd, slot (fds s) i = Some FREE
       /\ fds s' = <[Z.to_nat i := fd]> (fds s).
Proof.
  intros Hwf Hrun. apply accept_paths in Hrun; [|exact Hwf].
  destruct Hrun as [Hinv Hr Hf Ht Hq Hb
                   |Hval Hfull Hr Hf Ht Hq Hb
                   |lfd i fd Hs Hlfd Hlow Hfd Hneg Hr Hf Ht Hq Hb
                   |lfd i fd evs Hs Hlfd Hlow Hfd Hpos Hr Hf Ht Hsf Hnc Hin
                   |lfd i fd flags ok a1 a2 addr lenb Hs Hlfd Hlow Hfd Hpos
                      Hflags Hok Hr Hf Ht Hq Hb];
    [left; exact Hf|left; exact Hf
    |right; exists i, fd; destruct Hlow; auto ..].
Qed.

Lemma handler_table_step (r : Z) (s s' : State) :
  wf s -> handler_run world s r s' ->
  wf s'
  /\ (fds s' = fds s
      \/ exists i fd, slot (fds s) i = Some FREE
           /\ fds s' = <[Z.to_nat i := fd]> (fds s)).
Proof.
  intros Hwf Hrun.
  assert (Hstep : fds s' = fds s
                  \/ exists i fd, slot (fds s) i = Some FREE
                       /\ fds s' = <[Z.to_nat i := fd]> (fds s)).
  { destruct Hrun as [d t p Hrun|sckt a l Hrun|sckt a l Hrun|sckt a l Hrun
                     |sckt b Hrun|sckt g l f Hrun|sckt g l f Hrun].
    - eapply create_table_step; eauto.
    - eapply accept_table_step; eauto.
    - left. apply (plain_table sckt a l 0 r s s' Hwf). auto.
    - left. apply (plain_table sckt a l 0 r s s' Hwf). auto.
    - left. apply (plain_table sckt b 0 0 r s s' Hwf). auto.
    - left. apply (plain_table sckt g l f r s s' Hwf). auto 10.
    - left. apply (plain_table sckt g l f r s s' Hwf). auto 10. }
  split; [|exact Hstep].
  unfold wf in *. destruct Hstep as [->|(i & fd & _ & ->)];
    [|rewrite length_insert]; exact Hwf.
Qed.

(** X2.  One call of any handler, with any arguments and any environment,
    leaves the table with its MAX_FD_COUNT slots and either does not
    change it or overwrites exactly one slot, which was free before the
    call. *)
Theorem handler_writes_at_most_one_free_slot (r : Z) (s s' : State) :
  wf s -> handler_run world s r s' ->
  wf s'
  /\ (fds s' = fds s
      \/ exists i fd, slot (fds s) i = Some FREE
           /\ fds s' = <[Z.to_nat i := fd]> (fds s)).
Proof. apply handler_table_step. Qed.

(** X3.  Across any sequence of handler calls the table keeps its
    MAX_FD_COUNT slots and every owned slot keeps its descriptor: no
    handler of this file releases or replaces the descriptor behind a
    valid handle. *)
Theorem owned_slots_survive (s s' : State) :
  wf s -> handler_runs world s s' ->
  wf s'
  /\ forall h fd,
       slot (fds s) h = Some fd -> fd <> FREE -> slot (fds s') h = Some fd.
Proof.
  intros Hwf Hruns. induction Hruns as [s|s s1 s2 r Hrun Hruns IH].
  - split; [exact Hwf|auto].
  - destruct (handler_table_step r s s1 Hwf Hrun) as [Hwf1 Hstep].
    destruct (IH Hwf1) as [Hwf2 Hkeep].
    split; [exact Hwf2|].
    intros h fd Hs Hfd. apply Hkeep; [|exact Hfd].
    destruct Hstep as [->|(i & v & Hi & ->)]; [exact Hs|].
    rewrite slot_insert_ne; [exact Hs| |].
    + pose proof (slot_range _ _ _ Hi). lia.
    + intros ->. rewrite Hi in Hs. congruence.
Qed.

End Table.

(** ** What reaches the host and the guest *)

Section Forwarding.

Context `{P : Platform}.
Variable world : list Event -> Call -> Reply.

(** X4.  On a handle that passes the gate, [qc_handle_listen] makes
    exactly one call, [listen(fd, backlog)] on the descriptor of the
    slot, and returns its value; a negative value puts the host's errno
    in the error cell, any other value leaves the cell as it was. *)
Theorem listen_forwards_to_host
    (sckt backlog fd r : Z) (s s' : State) :
  wf s -> slot (fds s) sckt = Some fd -> fd <> FREE ->
  qc_handle_listen world sckt backlog s = (r, s') ->
  r = int32 (r_val (world (trace s) (c_listen fd backlog)))
  /\ new_events s s' = [Ev (c_listen fd backlog) r]
  /\ (r < 0 ->
      qemu_errno s' = int32 (r_errno (world (trace s) (c_listen fd backlog))))
  /\ (0 <= r -> qemu_errno s' = qemu_errno s).
Proof.
  intros Hwf Hs Hfd Hrun.
  apply listen_cases in Hrun; [|exact Hwf].
  destruct Hrun as [(Hinv & _)|(fd' & Hs' & _ & Hr & Ht & _ & _ & Hneg & Hpos)].
  - exfalso. apply (valid_not_invalid s sckt Hwf); [exists fd; auto|exact Hinv].
  - rewrite Hs in Hs'. injection Hs' as <-.
    rewrite (new_events_app s s' _ Ht). auto.
Qed.

Lemma addr_forwarding
    (mk : Z -> list byte -> Z -> Call) (sckt g_addr addrlen fd r : Z)
    (s s' : State) :
  wf s -> slot (fds s) sckt = Some fd -> fd <> FREE ->
  addrlen <= sizeof_sockaddr_in ->
  (exists fd' ack,
     let addr :=
       r_data (world (trace s) (c_mem_read g_addr sizeof_sockaddr_in)) in
     let h1 := Ev (c_mem_read g_addr sizeof_sockaddr_in) ack :: trace s in
     slot (fds s) sckt = Some fd' /\ fd' <> FREE
     /\ addrlen <= sizeof_sockaddr_in
     /\ r = int32 (r_val (world h1 (mk fd' addr addrlen)))
     /\ fds s' = fds s
     /\ new_touched s s' = [sckt; sckt]
     /\ (r < 0 ->
         trace s' = Ev (mk fd' addr addrlen) r :: h1
         /\ qemu_errno s' = int32 (r_errno (world h1 (mk fd' addr addrlen))))
     /\ (0 <= r ->
         qemu_errno s' = qemu_errno s
         /\ exists ack2,
              trace s'
              = Ev (c_mem_write g_addr addr sizeof_sockaddr_in) ack2
                :: Ev (mk fd' addr addrlen) r :: h1)) ->
  exists ack,
    let addr :=
      r_data (world (trace s) (c_mem_read g_addr sizeof_sockaddr_in)) in
    let h1 := Ev (c_mem_read g_addr sizeof_sockaddr_in) ack :: trace s in
    r = int32 (r_val (world h1 (mk fd addr addrlen)))
    /\ (r < 0 ->
        new_events s s'
        = [Ev (mk fd addr addrlen) r;
           Ev (c_mem_read g_addr sizeof_sockaddr_in) ack]
        /\ qemu_errno s' = int32 (r_errno (world h1 (mk fd addr addrlen))))
    /\ (0 <= r ->
        qemu_errno s' = qemu_errno s
        /\ exists ack2,
             new_events s s'
             = [Ev (c_mem_write g_addr addr sizeof_sockaddr_in) ack2;
                Ev (mk fd addr addrlen) r;
                Ev (c_mem_read g_addr sizeof_sockaddr_in) ack]).
Proof.
  intros Hwf Hs Hfd Hlen (fd' & ack & Hs' & _ & _ & Hr & _ & _ & Hneg & Hpos).
  rewrite Hs in Hs'. injection Hs' as <-.
  exists ack. cbv zeta. split; [exact Hr|]. split.
  - intros Hlt. destruct (Hneg Hlt) as [Ht Hq].
    split; [|exact Hq]. apply new_events_app. rewrite Ht. reflexivity.
  - intros Hge. destruct (Hpos Hge) as [Hq (ack2 & Ht)].
    split; [exact Hq|]. exists ack2.
    apply new_events_app. rewrite Ht. reflexivity.
Qed.

(** X5.  On a handle that passes the gate and with [addrlen] within
    [sizeof(struct sockaddr_in)], [qc_handle_bind] and [qc_handle_connect]
    read [sizeof(struct sockaddr_in)] bytes at [g_addr], whatever
    [addrlen] is, hand them with [addrlen] to the host's [bind] or
    [connect], and return its value.  When that value is not negative
    they write the same bytes back to [g_addr] and leave the error cell
    as it was; when it is negative nothing is written and the host's
    errno goes to the error cell. *)
Theorem bind_and_connect_write_back_what_they_read
    (mk : Z -> list byte -> Z -> Call) (sckt g_addr addrlen fd r : Z)
    (s s' : State) :
  wf s -> slot (fds s) sckt = Some fd -> fd <> FREE ->
  addrlen <= sizeof_sockaddr_in ->
  (mk = c_bind /\ qc_handle_bind world sckt g_addr addrlen s = (r, s'))
  \/ (mk = c_connect
      /\ qc_handle_connect world sckt g_addr addrlen s = (r, s')) ->
  exists ack,
    let addr :=
      r_data (world (trace s) (c_mem_read g_addr sizeof_sockaddr_in)) in
    let h1 := Ev (c_mem_read g_addr sizeof_sockaddr_in) ack :: trace s in
    r = int32 (r_val (world h1 (mk fd addr addrlen)))
    /\ (r < 0 ->
        new_events s s'
        = [Ev (mk fd addr addrlen) r;
           Ev (c_mem_read g_addr sizeof_sockaddr_in) ack]
        /\ qemu_errno s' = int32 (r_errno (world h1 (mk fd addr addrlen))))
    /\ (0 <= r ->
        qemu_errno s' = qemu_errno s
        /\ exists ack2,
             new_events s s'
             = [Ev (c_mem_write g_addr addr sizeof_sockaddr_in) ack2;
                Ev (mk fd addr addrlen) r;
                Ev (c_mem_read g_addr sizeof_sockaddr_in) ack]).
Proof.
  intros Hwf Hs Hfd Hlen Hrun.
  assert (Hval : valid_fd s sckt) by (exists fd; auto).
  apply (addr_forwarding mk sckt g_addr addrlen fd r s s' Hwf Hs Hfd Hlen).
  destruct Hrun as [[-> Hrun]|[-> Hrun]].
  - apply bind_cases in Hrun; [|exact Hwf].
    destruct Hrun as [(Hinv & _)|[(_ & Hbig & _)|Hcall]].
    + destruct (valid_not_invalid s sckt Hwf Hval Hinv).
    + lia.
    + exact Hcall.
  - apply connect_cases in Hrun; [|exact Hwf].
    destruct Hrun as [(Hinv & _)|[(_ & Hbig & _)|Hcall]].
    + destruct (valid_not_invalid s sckt Hwf Hval Hinv).
    + lia.
    + exact Hcall.
Qed.

(** X6.  [qc_handle_send] never writes guest memory.  On a handle that
    passes the gate and with [length] within MAX_BUF_SIZE it reads
    exactly [length] bytes at [g_buffer], hands them with [length] and
    [flags] to the host's [send], and returns the host's result narrowed
    to [int]; a negative result copies errno to the error cell, any
    other result, 0 included, leaves the cell as it was. *)
Theorem send_forwards_guest_bytes
    (sckt g_buffer length flags r : Z) (s s' : State) :
  wf s ->
  qc_handle_send world sckt g_buffer length flags s = (r, s') ->
  no_mem_write (new_events s s') = true
  /\ forall fd,
       slot (fds s) sckt = Some fd -> fd <> FREE ->
       length <= MAX_BUF_SIZE ->
       exists ack n,
         let buffer := r_data (world (trace s) (c_mem_read g_buffer length)) in
         let h1 := Ev (c_mem_read g_buffer length) ack :: trace s in
         n = int64 (r_val (world h1 (c_send fd buffer length flags)))
         /\ r = int32 n
         /\ new_events s s'
            = [Ev (c_send fd buffer length flags) n;
               Ev (c_mem_read g_buffer length) ack]
         /\ (r < 0 -> qemu_errno s' = errno s')
         /\ (0 <= r -> qemu_errno s' = qemu_errno s).
Proof.
  intros Hwf Hrun. apply send_cases in Hrun; [|exact Hwf].
  destruct Hrun as [(Hinv & _ & _ & _ & Ht & _)
                   |[(Hval & Hbig & _ & _ & _ & Ht & _)
                    |(fd' & ack & n & Hs' & _ & _ & Hn & Hr & Ht & _ & _
                      & Hneg & Hpos & _)]].
  - rewrite (new_events_app s s' [] Ht). split; [reflexivity|].
    intros fd Hs Hfd _. exfalso.
    apply (valid_not_invalid s sckt Hwf); [exists fd; auto|exact Hinv].
  - rewrite (new_events_app s s' [] Ht). split; [reflexivity|].
    intros fd _ _ Hlen. lia.
  - assert (Hev : new_events s s'
                  = [Ev (c_send fd'
                           (r_data (world (trace s) (c_mem_read g_buffer length)))
                           length flags) n;
                     Ev (c_mem_read g_buffer length) ack]).
    { apply new_events_app. rewrite Ht. reflexivity. }
    rewrite Hev. split; [reflexivity|].
    intros fd Hs _ _. rewrite Hs' in Hs. injection Hs as <-.
    exists ack, n. cbv zeta. auto.
Qed.

End Forwarding.

(** ** Failures of the host while a descriptor is set up *)

Section HostFailures.

Context `{P : Platform}.
Variable world : list Event -> Call -> Reply.

Lemma insert_free_id (t : list Z) (i : Z) :
  slot t i = Some FREE -> <[Z.to_nat i := -1]> t = t.
Proof.
  unfold slot. destruct (0 <=? i); [|discriminate].
  intros Hl. apply list_insert_id. exact Hl.
Qed.

Lemma create_host_failure
    (domain type protocol i r : Z) (s s' : State) :
  wf s -> lowest_free (fds s) i ->
  int32 (r_val (world (trace s) (c_socket domain type protocol))) < 0 ->
  qc_handle_socket world domain type protocol s = (r, s') ->
  r = -1
  /\ fds s' = <[Z.to_nat i :=
              int32 (r_val (world (trace s) (c_socket domain type protocol)))]>
             (fds s)
  /\ trace s'
     = [Ev (c_socket domain type protocol)
          (int32 (r_val (world (trace s) (c_socket domain type protocol))))]
       ++ trace s
  /\ qemu_errno s'
     = int32 (r_errno (world (trace s) (c_socket domain type protocol))).
Proof.
  intros Hwf Hlow Hneg Hrun.
  rewrite (qc_handle_socket_found world _ _ _ s i Hwf Hlow) in Hrun.
  destruct (host_int world (c_socket _ _ _) _) as [fd s1] eqn:Hsock.
  apply host_int_inv in Hsock as (Hfd & Hf1 & Hq1 & Ht1 & Hto1 & _ & He).
  cbn in Hfd, Ht1, He. rewrite <- Hfd in *.
  cbv zeta in Hrun. destruct (Z.ltb_spec fd 0); [|lia].
  injection Hrun as <- <-. cbn. rewrite Ht1, He by assumption. auto.
Qed.

Lemma accept_host_failure
    (sckt g_addr g_addrlen lfd i r : Z) (s s' : State) :
  wf s -> slot (fds s) sckt = Some lfd -> lfd <> FREE ->
  lowest_free (fds s) i ->
  int32 (r_val (world (trace s) (c_accept lfd))) < 0 ->
  qc_handle_accept world sckt g_addr g_addrlen s = (r, s') ->
  r = -1
  /\ fds s' = <[Z.to_nat i := int32 (r_val (world (trace s) (c_accept lfd)))]>
             (fds s)
  /\ trace s'
     = [Ev (c_accept lfd) (int32 (r_val (world (trace s) (c_accept lfd))))]
       ++ trace s
  /\ qemu_errno s' = int32 (r_errno (world (trace s) (c_accept lfd))).
Proof.
  intros Hwf Hs Hlfd Hlow Hneg Hrun.
  rewrite (qc_handle_accept_found world _ _ _ lfd s i Hwf Hs Hlfd Hlow) in Hrun.
  destruct (host_accept world lfd _) as [[[fd addr] addrlen] s1] eqn:Hacc.
  apply host_accept_inv in Hacc as (Hfd & Hf1 & Hq1 & Ht1 & Hto1 & _ & He).
  cbn in Hfd, Ht1, He. rewrite <- Hfd in *.
  cbv zeta in Hrun. destruct (Z.ltb_spec fd 0); [|lia].
  injection Hrun as <- <-. cbn. rewrite Ht1, He by assumption. auto.
Qed.

(** X7.  When the host's [socket] (in [qc_handle_socket]) or [accept] (in
    [qc_handle_accept], on a handle that passes the gate) returns a
    negative value while the table has a free slot, the handler makes no
    other call, returns -1 and puts the host's errno in the error cell.
    The lowest free slot receives the host's value; when that value is
    -1 the table is exactly as before the call. *)
Theorem failed_socket_or_accept_leaves_table
    (call : Call) (domain type protocol sckt g_addr g_addrlen lfd i r : Z)
    (s s' : State) :
  wf s -> lowest_free (fds s) i ->
  (call = c_socket domain type protocol
   /\ qc_handle_socket world domain type protocol s = (r, s'))
  \/ (call = c_accept lfd
      /\ slot (fds s) sckt = Some lfd /\ lfd <> FREE
      /\ qc_handle_accept world sckt g_addr g_addrlen s = (r, s')) ->
  int32 (r_val (world (trace s) call)) < 0 ->
  r = -1
  /\ new_events s s' = [Ev call (int32 (r_val (world (trace s) call)))]
  /\ qemu_errno s' = int32 (r_errno (world (trace s) call))
  /\ fds s' = <[Z.to_nat i := int32 (r_val (world (trace s) call))]> (fds s)
  /\ (int32 (r_val (world (trace s) call)) = -1 -> fds s' = fds s).
Proof.
  intros Hwf Hlow Hrun Hneg.
  assert (Hfacts :
    r = -1
    /\ fds s' = <[Z.to_nat i := int32 (r_val (world (trace s) call))]> (fds s)
    /\ trace s' = [Ev call (int32 (r_val (world (trace s) call)))] ++ trace s
    /\ qemu_errno s' = int32 (r_errno (world (trace s) call))).
  { destruct Hrun as [[-> Hrun]|(-> & Hs & Hlfd & Hrun)].
    - eapply create_host_failure; eauto.
    - eapply accept_host_failure; eauto. }
  destruct Hfacts as (Hr & Hf & Ht & Hq).
  rewrite (new_events_app s s' _ Ht).
  repeat split; auto.
  intros Hm1. rewrite Hf, Hm1. apply insert_free_id. destruct Hlow; assumption.
Qed.

(** X8.  On a full table [qc_handle_accept], given a handle that passes
    the gate, does not call the host's [accept]: it returns -1 with
    ENOTSOCK in the error cell and makes no call at all, so the pending
    connection is left with the host. *)
Theorem accept_on_full_table_makes_no_call
    (sckt g_addr g_addrlen : Z) (s : State) :
  wf s -> valid_fd s sckt -> full (fds s) ->
  quiet (qc_handle_accept world sckt g_addr g_addrlen s) (-1) ENOTSOCK s.
Proof.
  intros Hwf (lfd & Hs & Hlfd) Hfull.
  rewrite (qc_handle_accept_full world _ _ _ lfd s Hwf Hs Hlfd Hfull).
  unfold quiet. cbn. auto.
Qed.

End HostFailures.

(** ** Non-blocking setup and what follows it *)

Section Setup.

Context `{P : Platform}.
Variable world : list Event -> Call -> Reply.

(** X9.  [set_socket_non_blocking] on an owned slot never changes the
    table or the error cell.  It asks for the flags first; when that
    fails it returns -1 without issuing [F_SETFL].  Otherwise it issues
    one [F_SETFL] on the same descriptor whose argument keeps every flag
    the host reported and has the O_NONBLOCK bits set, and it returns
    [index] exactly when that call does not fail, -1 when it does. *)
Theorem set_socket_non_blocking_keeps_flags
    (index fd r : Z) (s s' : State) :
  slot (fds s) index = Some fd ->
  set_socket_non_blocking world index s = (r, s') ->
  let flags := int32 (r_val (world (trace s) (c_fcntl_getfl fd))) in
  fds s' = fds s /\ qemu_errno s' = qemu_errno s
  /\ (flags < 0 -> r = -1 /\ new_events s s' = [Ev (c_fcntl_getfl fd) flags])
  /\ (0 <= flags ->
      exists ok,
        new_events s s'
        = [Ev (c_fcntl_setfl fd (Z.lor flags O_NONBLOCK)) ok;
           Ev (c_fcntl_getfl fd) flags]
        /\ Z.land (Z.lor flags O_NONBLOCK) flags = flags
        /\ Z.land (Z.lor flags O_NONBLOCK) O_NONBLOCK = O_NONBLOCK
        /\ (0 <= ok -> r = index)
        /\ (ok < 0 -> r = -1)).
Proof.
  intros Hs Hrun flags.
  rewrite (set_socket_non_blocking_owned world index fd s Hs) in Hrun.
  destruct (host_int world (c_fcntl_getfl fd) _) as [v s1] eqn:Hget.
  apply host_int_inv in Hget as (Hv & Hf1 & Hq1 & Ht1 & _).
  cbn in Hv, Hf1, Hq1, Ht1. fold flags in Hv. subst v.
  destruct (Z.ltb_spec flags 0) as [Hneg|Hpos].
  { injection Hrun as <- <-. rewrite Hf1, Hq1.
    rewrite (new_events_app s s1 [Ev (c_fcntl_getfl fd) flags])
      by (rewrite Ht1; reflexivity).
    repeat split; auto; lia. }
  destruct (host_int world (c_fcntl_setfl fd _) _) as [ok s2] eqn:Hset.
  apply host_int_inv in Hset as (Hok & Hf2 & Hq2 & Ht2 & _).
  cbn in Hf2, Hq2, Ht2. rewrite Hf1 in Hf2. rewrite Hq1 in Hq2.
  rewrite Ht1 in Ht2.
  assert (Hev : new_events s s2
                = [Ev (c_fcntl_setfl fd (Z.lor flags O_NONBLOCK)) ok;
                   Ev (c_fcntl_getfl fd) flags]).
  { apply new_events_app. rewrite Ht2. reflexivity. }
  assert (Hkeep : Z.land (Z.lor flags O_NONBLOCK) flags = flags).
  { rewrite Z.lor_comm. apply lor_keeps_bits. }
  destruct (Z.ltb_spec ok 0) as [Hsneg|Hspos]; injection Hrun as <- <-.
  - split; [exact Hf2|]. split; [exact Hq2|]. split; [intros; lia|].
    intros _. exists ok. repeat split; auto using lor_keeps_bits; lia.
  - split; [exact Hf2|]. split; [exact Hq2|]. split; [intros; lia|].
    intros _. exists ok. repeat split; auto using lor_keeps_bits; lia.
Qed.

Lemma accept_success
    (sckt g_addr g_addrlen r : Z) (s s' : State) :
  wf s ->
  qc_handle_accept world sckt g_addr g_addrlen s = (r, s') ->
  0 <= r ->
  exists lfd fd flags ok a1 a2,
    slot (fds s) sckt = Some lfd /\ lfd <> FREE
    /\ lowest_free (fds s) r
    /\ fds s' = <[Z.to_nat r := fd]> (fds s) /\ 0 <= fd
    /\ trace s'
       = [Ev (c_mem_write g_addrlen
                (le_bytes (Z.to_nat sizeof_socklen_t)
                   (r_len (world (trace s) (c_accept lfd))))
                sizeof_socklen_t) a2;
          Ev (c_mem_write g_addr (r_data (world (trace s) (c_accept lfd)))
                sizeof_sockaddr_in) a1;
          Ev (c_fcntl_setfl fd (Z.lor flags O_NONBLOCK)) ok;
          Ev (c_fcntl_getfl fd) flags;
          Ev (c_accept lfd) fd] ++ trace s.
Proof.
  intros Hwf Hrun Hr0.
  destruct (valid_or_invalid s sckt Hwf) as [(lfd & Hs & Hlfd)|Hinv].
  2:{ unfold qc_handle_accept in Hrun.
      apply gate_turns_away in Hrun; [|assumption|assumption].
      destruct Hrun as (Hr & _). lia. }
  destruct (lowest_free_or_full (fds s)) as [[i Hlow]|Hfull].
  2:{ rewrite (qc_handle_accept_full world _ _ _ lfd s Hwf Hs Hlfd Hfull) in Hrun.
      injection Hrun as <- _. lia. }
  rewrite (qc_handle_accept_found world _ _ _ lfd s i Hwf Hs Hlfd Hlow) in Hrun.
  destruct (host_accept world lfd _) as [[[fd addr] addrlen] s1] eqn:Hacc.
  pose proof Hacc as Hraw. unfold host_accept in Hraw. cbn in Hraw.
  injection Hraw as _ Hlen Hdata _.
  apply host_accept_inv in Hacc as (Hfd & Hf1 & Hq1 & Ht1 & _).
  cbn in Hfd, Hf1, Hq1, Ht1. cbv zeta in Hrun.
  destruct (Z.ltb_spec fd 0) as [Hneg|Hpos].
  { injection Hrun as <- _. lia. }
  destruct (host_int world (c_fcntl_getfl fd) _) as [flags s3] eqn:Hget.
  apply host_int_inv in Hget as (_ & Hf3 & _ & Ht3 & _).
  cbn in Hf3, Ht3. rewrite Ht1 in Ht3.
  destruct (Z.ltb_spec flags 0) as [Hfneg|Hfpos].
  { apply accept_cleanup_inv in Hrun as (-> & _). lia. }
  destruct (host_int world (c_fcntl_setfl fd _) _) as [ok s4] eqn:Hset.
  apply host_int_inv in Hset as (_ & Hf4 & _ & Ht4 & _).
  cbn in Hf4, Ht4. rewrite Hf3 in Hf4. rewrite Ht3 in Ht4.
  destruct (Z.ltb_spec ok 0) as [Hsneg|Hspos].
  { apply accept_cleanup_inv in Hrun as (-> & _). lia. }
  unfold bind, cpu_memory_rw_debug_write, ret in Hrun.
  injection Hrun as <- <-.
  exists lfd, fd, flags, ok. eexists. eexists.
  split; [exact Hs|]. split; [exact Hlfd|]. split; [exact Hlow|].
  cbn. rewrite Hf4, Ht4, <- Hlen, <- Hdata. auto.
Qed.

(** X10.  [qc_handle_accept] copies to guest memory only when it returns
    a handle.  Then it makes exactly two copies, after the two [fcntl]
    calls: the [sizeof(struct sockaddr_in)] address bytes that the host's
    [accept] stored, to [g_addr], and then the [sizeof(socklen_t)] bytes
    of the length it stored, to [g_addrlen].  The descriptor passed to
    [accept] is the one in the slot of [sckt].  On every run returning a
    negative value no copy from or to guest memory is made. *)
Theorem accept_reports_peer_address
    (sckt g_addr g_addrlen r : Z) (s s' : State) :
  wf s ->
  qc_handle_accept world sckt g_addr g_addrlen s = (r, s') ->
  (0 <= r ->
   exists lfd fd flags ok a1 a2,
     slot (fds s) sckt = Some lfd
     /\ new_events s s'
        = [Ev (c_mem_write g_addrlen
                 (le_bytes (Z.to_nat sizeof_socklen_t)
                    (r_len (world (trace s) (c_accept lfd))))
                 sizeof_socklen_t) a2;
           Ev (c_mem_write g_addr (r_data (world (trace s) (c_accept lfd)))
                 sizeof_sockaddr_in) a1;
           Ev (c_fcntl_setfl fd (Z.lor flags O_NONBLOCK)) ok;
           Ev (c_fcntl_getfl fd) flags;
           Ev (c_accept lfd) fd])
  /\ (r < 0 -> no_mem_copy (new_events s s') = true).
Proof.
  intros Hwf Hrun. split.
  - intros Hr0.
    destruct (accept_success sckt g_addr g_addrlen r s s' Hwf Hrun Hr0)
      as (lfd & fd & flags & ok & a1 & a2 & Hs & _ & _ & _ & _ & Ht).
    exists lfd, fd, flags, ok, a1, a2. split; [exact Hs|].
    apply new_events_app. exact Ht.
  - intros Hneg. apply accept_paths in Hrun; [|exact Hwf].
    destruct Hrun as [Hinv Hr Hf Ht Hq Hb
                     |Hval Hfull Hr Hf Ht Hq Hb
                     |lfd i fd Hs Hlfd Hlow Hfd Hlt Hr Hf Ht Hq Hb
                     |lfd i fd evs Hs Hlfd Hlow Hfd Hpos Hr Hf Ht Hsf Hnc Hin
                     |lfd i fd flags ok a1 a2 addr lenb Hs Hlfd Hlow Hfd Hpos
                        Hflags Hok Hr Hf Ht Hq Hb].
    + rewrite (new_events_app s s' [] Ht). reflexivity.
    + rewrite (new_events_app s s' [] Ht). reflexivity.
    + rewrite (new_events_app s s' _ Ht). reflexivity.
    + rewrite (new_events_app s s' _ Ht). unfold no_mem_copy.
      rewrite forallb_app, Hnc. reflexivity.
    + destruct Hlow as [Hi _]. pose proof (slot_range _ _ _ Hi). lia.
Qed.

End Setup.

(** ** Handlers one after the other *)

Section Sequences.

Context `{P : Platform}.
Variable world : list Event -> Call -> Reply.

Lemma handed_out
    (domain type protocol sckt g_addr g_addrlen r : Z) (s s' : State) :
  wf s ->
  qc_handle_socket world domain type protocol s = (r, s')
  \/ qc_handle_accept world sckt g_addr g_addrlen s = (r, s') ->
  0 <= r ->
  wf s' /\ exists fd, slot (fds s') r = Some fd /\ 0 <= fd.
Proof.
  intros Hwf Hrun Hr0.
  assert (Hins : exists fd, 0 <= fd /\ slot (fds s) r = Some FREE
                   /\ fds s' = <[Z.to_nat r := fd]> (fds s)).
  { destruct Hrun as [Hrun|Hrun].
    - apply create_paths in Hrun; [|exact Hwf].
      destruct Hrun as [Hfull Hr Hf Ht Hq Hb
                       |i fd Hlow Hfd Hneg Hr Hf Ht Hq Hb
                       |i fd evs Hlow Hfd Hpos Hr Hf Ht Hsf Hin
                       |i fd flags ok Hlow Hfd Hpos Hflags Hok Hr Hf Ht Hq Hb];
        try lia.
      subst r. exists fd. destruct Hlow. auto.
    - destruct (accept_success world sckt g_addr g_addrlen r s s' Hwf Hrun Hr0)
        as (lfd & fd & flags & ok & a1 & a2 & _ & _ & [Hi _] & Hf & Hpos & _).
      exists fd. auto. }
  destruct Hins as (fd & Hpos & Hi & Hf). split.
  - unfold wf in *. rewrite Hf, length_insert. exact Hwf.
  - exists fd. rewrite Hf. split; [eapply slot_insert_eq; exact Hi|exact Hpos].
Qed.

(** X11.  A handle returned by [qc_handle_socket] or [qc_handle_accept]
    passes the gate of the next handler: [qc_handle_listen] called on it
    next makes exactly one call, [listen] on the descriptor that the
    first call stored in the handle's slot, and returns its value. *)
Theorem returned_handle_reaches_the_host
    (domain type protocol sckt g_addr g_addrlen backlog r r2 : Z)
    (s s1 s2 : State) :
  wf s ->
  qc_handle_socket world domain type protocol s = (r, s1)
  \/ qc_handle_accept world sckt g_addr g_addrlen s = (r, s1) ->
  0 <= r ->
  qc_handle_listen world r backlog s1 = (r2, s2) ->
  exists fd,
    slot (fds s1) r = Some fd /\ 0 <= fd
    /\ valid_fd s1 r
    /\ new_events s1 s2 = [Ev (c_listen fd backlog) r2]
    /\ r2 = int32 (r_val (world (trace s1) (c_listen fd backlog))).
Proof.
  intros Hwf Hrun Hr0 Hlisten.
  destruct (handed_out domain type protocol sckt g_addr g_addrlen r s s1
              Hwf Hrun Hr0) as (Hwf1 & fd & Hs & Hpos).
  assert (Hfd : fd <> FREE) by (unfold FREE; lia).
  exists fd. split; [exact Hs|]. split; [exact Hpos|].
  split; [exists fd; auto|].
  apply listen_cases in Hlisten; [|exact Hwf1].
  destruct Hlisten as [(Hinv & _)|(fd' & Hs' & _ & Hr & Ht & _)].
  - exfalso. apply (valid_not_invalid s1 r Hwf1); [exists fd; auto|exact Hinv].
  - rewrite Hs in Hs'. injection Hs' as <-.
    rewrite (new_events_app s1 s2 _ Ht). auto.
Qed.

Variables domain type protocol : Z.

Lemma qc_handle_socket_no_getfl (s : State) (i : Z) :
  no_getfl world -> wf s -> lowest_free (fds s) i ->
  exists fd s',
    qc_handle_socket world domain type protocol s = (-1, s')
    /\ 0 <= fd /\ fds s' = <[Z.to_nat i := fd]> (fds s).
Proof.
  intros Hno Hwf Hlow.
  rewrite (qc_handle_socket_found world _ _ _ s i Hwf Hlow).
  destruct (host_int world (c_socket domain type protocol) (scanned i s))
    as [fd s1] eqn:Hsock.
  apply host_int_inv in Hsock as (Hfd & Hf1 & _).
  assert (Hpos : 0 <= fd) by (rewrite Hfd; apply Hno).
  cbv zeta. destruct (Z.ltb_spec fd 0); [lia|].
  destruct (host_int world (c_fcntl_getfl fd) _) as [flags s3] eqn:Hget.
  apply host_int_inv in Hget as (Hflags & Hf3 & _).
  assert (Hfneg : flags < 0) by (rewrite Hflags; apply Hno).
  destruct (Z.ltb_spec flags 0); [|lia].
  destruct (socket_cleanup world s3) as [r s'] eqn:Hclean.
  apply socket_cleanup_inv in Hclean as (-> & Hf & _).
  exists fd, s'. split; [reflexivity|]. split; [exact Hpos|].
  rewrite Hf, Hf3. reflexivity.
Qed.

Lemma creates_leak (n : nat) (k : Z) (s : State) :
  no_getfl world -> wf s -> 0 <= k ->
  (forall j, 0 <= j < k -> slot (fds s) j <> Some FREE) ->
  (forall j, k <= j < k + Z.of_nat n -> slot (fds s) j = Some FREE) ->
  fst (creates world domain type protocol n s) = replicate n (-1)
  /\ wf (snd (creates world domain type protocol n s))
  /\ (forall j, 0 <= j < k + Z.of_nat n ->
        slot (fds (snd (creates world domain type protocol n s))) j
        <> Some FREE).
Proof.
  intros Hno. revert k s.
  induction n as [|n IH]; intros k s Hwf Hk Hown Hfree.
  - cbn. split; [reflexivity|]. split; [exact Hwf|].
    intros j Hj. apply Hown. lia.
  - assert (Hlow : lowest_free (fds s) k).
    { split; [apply Hfree; lia|exact Hown]. }
    destruct (qc_handle_socket_no_getfl s k Hno Hwf Hlow)
      as (fd & s1 & Hrun & Hfd & Hf).
    cbn [creates]. rewrite Hrun.
    assert (Hwf1 : wf s1).
    { unfold wf in *. rewrite Hf, length_insert. exact Hwf. }
    destruct (IH (k + 1) s1) as (Hrs & Hwf2 & Hown2); try assumption; try lia.
    + intros j Hj. rewrite Hf.
      destruct (Z.eq_dec j k) as [->|Hne].
      * rewrite (slot_insert_eq _ _ FREE) by (destruct Hlow; assumption).
        unfold FREE. intros Heq. injection Heq as Heq. lia.
      * rewrite slot_insert_ne by lia. apply Hown. lia.
    + intros j Hj. rewrite Hf, slot_insert_ne by lia. apply Hfree. lia.
    + destruct (creates world domain type protocol n s1) as [rs s2].
      cbn in *. split; [rewrite Hrs; reflexivity|]. split; [exact Hwf2|].
      intros j Hj. apply Hown2. lia.
Qed.

(** X12.  On a host where [socket] succeeds and [fcntl(F_GETFL)] fails,
    every create returns -1 and still uses up a slot: MAX_FD_COUNT
    creates in a row from the empty table all return -1 and leave the
    table full, and from then on create returns -1 with ENOTSOCK without
    calling the host at all, whatever the host would answer. *)
Theorem failed_setups_fill_the_table (s : State) :
  no_getfl world -> wf s ->
  fds s = replicate (Z.to_nat MAX_FD_COUNT) FREE ->
  let run := creates world domain type protocol (Z.to_nat MAX_FD_COUNT) s in
  fst run = replicate (Z.to_nat MAX_FD_COUNT) (-1)
  /\ full (fds (snd run))
  /\ forall world' domain' type' protocol',
       quiet (qc_handle_socket world' domain' type' protocol' (snd run))
         (-1) ENOTSOCK (snd run).
Proof.
  intros Hno Hwf Hempty run.
  assert (Hmax : 0 <= MAX_FD_COUNT) by (unfold wf in Hwf; lia).
  destruct (creates_leak (Z.to_nat MAX_FD_COUNT) 0 s Hno Hwf)
    as (Hrs & Hwf' & Hown); try lia.
  { intros j Hj. rewrite Hempty. apply slot_replicate. lia. }
  fold run in Hrs, Hwf', Hown.
  assert (Hfull : full (fds (snd run))).
  { apply full_by_range. intros j Hj. apply Hown. unfold wf in Hwf'. lia. }
  split; [exact Hrs|]. split; [exact Hfull|].
  intros world' domain' type' protocol'.
  rewrite (qc_handle_socket_full world' domain' type' protocol' _ Hwf' Hfull).
  unfold quiet. cbn. auto.
Qed.

End Sequences.

(** ** Handlers without guest pointers *)

Section NoGuestMemory.

Context `{P : Platform}.
Variable world : list Event -> Call -> Reply.

Lemma create_makes_no_copy (domain type protocol r : Z) (s s' : State) :
  wf s ->
  qc_handle_socket world domain type protocol s = (r, s') ->
  no_mem_copy (new_events s s') = true.
Proof.
  intros Hwf Hrun.
  destruct (lowest_free_or_full (fds s)) as [[i Hlow]|Hfull].
  2:{ rewrite (qc_handle_socket_full world _ _ _ s Hwf Hfull) in Hrun.
      injection Hrun as _ <-.
      rewrite (new_events_app s _ []) by reflexivity. reflexivity. }
  rewrite (qc_handle_socket_found world _ _ _ s i Hwf Hlow) in Hrun.
  destruct (host_int world (c_socket _ _ _) _) as [fd s1] eqn:Hsock.
  apply host_int_inv in Hsock as (_ & _ & _ & Ht1 & _).
  cbn in Ht1. cbv zeta in Hrun.
  destruct (fd <? 0).
  { injection Hrun as _ <-.
    rewrite (new_events_app s _ [Ev (c_socket domain type protocol) fd])
      by (cbn; rewrite Ht1; reflexivity).
    reflexivity. }
  destruct (host_int world (c_fcntl_getfl fd) _) as [flags s3] eqn:Hget.
  apply host_int_inv in Hget as (_ & _ & _ & Ht3 & _).
  cbn in Ht3. rewrite Ht1 in Ht3.
  destruct (flags <? 0).
  { apply socket_cleanup_inv in Hrun as (_ & _ & _ & _ & v & w & Ht).
    rewrite Ht3 in Ht.
    rewrite (new_events_app s s'
               [Ev (c_oob_store (-1) (-1)) 0; Ev (c_close v) w;
                Ev (c_oob_load (-1)) v; Ev (c_fcntl_getfl fd) flags;
                Ev (c_socket domain type protocol) fd])
      by (rewrite Ht; reflexivity).
    reflexivity. }
  destruct (host_int world (c_fcntl_setfl fd _) _) as [ok s4] eqn:Hset.
  apply host_int_inv in Hset as (_ & _ & _ & Ht4 & _).
  cbn in Ht4. rewrite Ht3 in Ht4.
  destruct (ok <? 0).
  { apply socket_cleanup_inv in Hrun as (_ & _ & _ & _ & v & w & Ht).
    rewrite Ht4 in Ht.
    rewrite (new_events_app s s'
               [Ev (c_oob_store (-1) (-1)) 0; Ev (c_close v) w;
                Ev (c_oob_load (-1)) v;
                Ev (c_fcntl_setfl fd (Z.lor flags O_NONBLOCK)) ok;
                Ev (c_fcntl_getfl fd) flags;
                Ev (c_socket domain type protocol) fd])
      by (rewrite Ht; reflexivity).
    reflexivity. }
  injection Hrun as _ <-.
  rewrite (new_events_app s s4
             [Ev (c_fcntl_setfl fd (Z.lor flags O_NONBLOCK)) ok;
              Ev (c_fcntl_getfl fd) flags;
              Ev (c_socket domain type protocol) fd])
    by (rewrite Ht4; reflexivity).
  reflexivity.
Qed.

(** X13.  [qc_handle_socket] and [qc_handle_listen], which take no guest
    pointer, never read or write guest memory, on any run. *)
Theorem create_and_listen_leave_guest_memory
    (domain type protocol sckt backlog r : Z) (s s' : State) :
  wf s ->
  qc_handle_socket world domain type protocol s = (r, s')
  \/ qc_handle_listen world sckt backlog s = (r, s') ->
  no_mem_copy (new_events s s') = true.
Proof.
  intros Hwf [Hrun|Hrun].
  - eapply create_makes_no_copy; eauto.
  - apply listen_cases in Hrun; [|exact Hwf].
    destruct Hrun as [(_ & _ & _ & _ & Ht & _)|(fd & _ & _ & _ & Ht & _)].
    + rewrite (new_events_app s s' [] Ht). reflexivity.
    + rewrite (new_events_app s s' _ Ht). reflexivity.
Qed.

End NoGuestMemory.

(** ** The scan, slot by slot *)

Section ScanOrder.

Context `{P : Platform}.
Variable world : list Event -> Call -> Reply.

(** X14.  [find_free_socket] makes no call and never writes the table or
    errno.  It reads the slots in increasing order starting at 0, each
    once, and stops at the first free one: on success the slots read are
    exactly 0..r, the error cell is untouched and r is inside the table;
    when no slot is free it has read all MAX_FD_COUNT slots, none
    outside the array, and leaves ENOMEM in the error cell. *)
Theorem find_free_socket_scans_in_order (r : Z) (s s' : State) :
  wf s ->
  find_free_socket world s = (r, s') ->
  fds s' = fds s /\ trace s' = trace s /\ errno s' = errno s
  /\ in_bounds (new_touched s s')
  /\ ((0 <= r < MAX_FD_COUNT /\ lowest_free (fds s) r
       /\ qemu_errno s' = qemu_errno s
       /\ rev (new_touched s s') = Zrange 0 (Z.to_nat (r + 1)))
      \/ (r = -1 /\ full (fds s)
          /\ qemu_errno s' = ENOMEM
          /\ rev (new_touched s s') = Zrange 0 (Z.to_nat MAX_FD_COUNT))).
Proof.
  intros Hwf Hrun.
  destruct (lowest_free_or_full (fds s)) as [[i Hlow]|Hfull].
  - rewrite (find_free_socket_found world s i Hwf Hlow) in Hrun.
    injection Hrun as <- <-.
    pose proof Hlow as [Hi _]. pose proof (slot_range _ _ _ Hi) as Hr.
    assert (Hb : 0 <= i < MAX_FD_COUNT) by (unfold wf in Hwf; lia).
    rewrite (new_touched_app s _ (rev (Zrange 0 (Z.to_nat (i + 1)))))
      by reflexivity.
    cbn. repeat split; auto.
    + apply in_bounds_scan. exact Hb.
    + left. rewrite rev_involutive. auto.
  - rewrite (find_free_socket_full world s Hwf Hfull) in Hrun.
    injection Hrun as <- <-.
    rewrite (new_touched_app s _ (rev (Zrange 0 (Z.to_nat MAX_FD_COUNT))))
      by reflexivity.
    cbn. repeat split; auto.
    + apply in_bounds_Zrange. unfold wf in Hwf. lia.
    + right. rewrite rev_involutive. auto.
Qed.

End ScanOrder.

(** * The theorems at concrete inputs

    All with the sample values [linux] of the constants. *)

#[local] Existing Instance linux.

Lemma host_ok_cooperative : cooperative host_ok.
Proof.
  intros h c Hc. destruct c; try discriminate; cbn;
    try (pose proof (Z.mod_pos_bound (Z.of_nat (length h)) 1024 ltac:(lia));
         rewrite int32_id by (unfold INT_MIN, INT_MAX; lia); lia);
    rewrite int32_id by (unfold INT_MIN, INT_MAX; lia); lia.
Qed.

Lemma create_on_full_table_reports_ENOTSOCK_witness :
  qemu_errno (snd (find_free_socket host_ok crowded)) = ENOMEM
  /\ fst (qc_handle_socket host_ok 2 1 0 crowded) = -1
  /\ qemu_errno (snd (qc_handle_socket host_ok 2 1 0 crowded)) = ENOTSOCK
  /\ fds (snd (qc_handle_socket host_ok 2 1 0 crowded)) = fds crowded
  /\ trace (snd (qc_handle_socket host_ok 2 1 0 crowded)) = trace crowded.
Proof.
  apply (create_on_full_table_reports_ENOTSOCK host_ok 2 1 0 crowded).
  - reflexivity.
  - apply full_forallb. vm_compute. reflexivity.
Defined.

Lemma setup_failure_keeps_slot_claimed_witness :
  -1 = -1
  /\ exists i fd,
       slot (fds (init)) i = Some FREE
       /\ slot (fds (snd (qc_handle_socket host_no_fcntl 2 1 0 init))) i
          = Some fd
       /\ 0 <= fd /\ fd <> FREE.
Proof.
  apply (setup_failure_keeps_slot_claimed host_no_fcntl
           2 1 0 0 0 0 (-1) init
           (snd (qc_handle_socket host_no_fcntl 2 1 0 init))).
  - reflexivity.
  - left. vm_compute. reflexivity.
  - vm_compute. reflexivity.
Defined.

Lemma setup_failure_subscripts_minus_one_witness :
  (setup_failed
     (new_events init (snd (qc_handle_socket host_no_fcntl 2 1 0 init))) = true ->
   In (-1) (new_touched init (snd (qc_handle_socket host_no_fcntl 2 1 0 init)))
   /\ ~ in_bounds
          (new_touched init (snd (qc_handle_socket host_no_fcntl 2 1 0 init))))
  /\ (setup_failed
       (new_events init (snd (qc_handle_socket host_no_fcntl 2 1 0 init))) = false ->
     in_bounds
       (new_touched init (snd (qc_handle_socket host_no_fcntl 2 1 0 init)))).
Proof.
  apply (setup_failure_subscripts_minus_one host_no_fcntl
           2 1 0 0 0 0 (-1) init
           (snd (qc_handle_socket host_no_fcntl 2 1 0 init))).
  - reflexivity.
  - left. vm_compute. reflexivity.
Defined.

Lemma returned_handle_is_non_blocking_witness :
  exists fd flags ok,
    slot (fds (snd (qc_handle_socket host_ok 2 1 0 init))) 0 = Some fd
    /\ 0 <= fd
    /\ (In (Ev (c_socket 2 1 0) fd)
          (new_events init (snd (qc_handle_socket host_ok 2 1 0 init)))
        \/ exists lfd,
             In (Ev (c_accept lfd) fd)
               (new_events init (snd (qc_handle_socket host_ok 2 1 0 init))))
    /\ In (Ev (c_fcntl_setfl fd (Z.lor flags O_NONBLOCK)) ok)
         (new_events init (snd (qc_handle_socket host_ok 2 1 0 init)))
    /\ 0 <= ok
    /\ Z.land (Z.lor flags O_NONBLOCK) O_NONBLOCK = O_NONBLOCK
    /\ setup_failed
         (new_events init (snd (qc_handle_socket host_ok 2 1 0 init))) = false.
Proof.
  apply (returned_handle_is_non_blocking host_ok 2 1 0 0 0 0 0 init
           (snd (qc_handle_socket host_ok 2 1 0 init))).
  - reflexivity.
  - left. vm_compute. reflexivity.
  - lia.
Defined.

Lemma invalid_handle_is_turned_away_witness :
  quiet (qc_handle_accept host_ok 300 4096 8192 init) (-1) ENOTSOCK init
  /\ quiet (qc_handle_bind host_ok 300 4096 16 init) (-1) ENOTSOCK init
  /\ quiet (qc_handle_connect host_ok 300 4096 16 init) (-1) ENOTSOCK init
  /\ quiet (qc_handle_listen host_ok 300 5 init) (-1) ENOTSOCK init
  /\ quiet (qc_handle_send host_ok 300 4096 64 0 init) (-1) ENOTSOCK init
  /\ quiet (qc_handle_recv host_ok 300 4096 64 0 init) (-1) ENOTSOCK init.
Proof.
  apply (invalid_handle_is_turned_away host_ok 300 4096 8192 16 5 4096 64 0 init).
  - reflexivity.
  - right. left. vm_compute. discriminate.
Defined.

Lemma one_socket_valid : valid_fd one_socket 0.
Proof. exists 3. split; [reflexivity|discriminate]. Defined.

Lemma oversize_addrlen_returns_zero_witness :
  quiet (qc_handle_bind host_ok 0 4096 17 one_socket) 0 ENOMEM one_socket
  /\ quiet (qc_handle_connect host_ok 0 4096 17 one_socket) 0 ENOMEM one_socket.
Proof.
  apply (oversize_addrlen_returns_zero host_ok 0 4096 17 one_socket).
  - reflexivity.
  - exact one_socket_valid.
  - reflexivity.
Defined.

Lemma oversize_length_is_refused_witness :
  (fst (qc_handle_send host_ok 0 4096 4097 0 one_socket) = -1
   /\ new_events one_socket
        (snd (qc_handle_send host_ok 0 4096 4097 0 one_socket)) = []
   /\ trace (snd (qc_handle_send host_ok 0 4096 4097 0 one_socket))
      = trace one_socket
   /\ fds (snd (qc_handle_send host_ok 0 4096 4097 0 one_socket))
      = fds one_socket)
  /\ (fst (qc_handle_recv host_ok 0 4096 4097 0 one_socket) = -1
   /\ new_events one_socket
        (snd (qc_handle_recv host_ok 0 4096 4097 0 one_socket)) = []
   /\ trace (snd (qc_handle_recv host_ok 0 4096 4097 0 one_socket))
      = trace one_socket
   /\ fds (snd (qc_handle_recv host_ok 0 4096 4097 0 one_socket))
      = fds one_socket)
  /\ (valid_fd one_socket 0 ->
      qemu_errno (snd (qc_handle_send host_ok 0 4096 4097 0 one_socket)) = ENOMEM
      /\ qemu_errno (snd (qc_handle_recv host_ok 0 4096 4097 0 one_socket))
         = ENOMEM).
Proof.
  apply (oversize_length_is_refused host_ok 0 4096 4097 0 one_socket).
  - reflexivity.
  - reflexivity.
Defined.

Lemma recv_passes_on_empty_result_witness :
  0 = 0
  /\ new_events one_socket (snd (qc_handle_recv host_eof 0 4096 16 0 one_socket))
     = [Ev (c_recv 3 16 0) 0]
  /\ fds (snd (qc_handle_recv host_eof 0 4096 16 0 one_socket)) = fds one_socket
  /\ qemu_errno (snd (qc_handle_recv host_eof 0 4096 16 0 one_socket))
     = errno (snd (qc_handle_recv host_eof 0 4096 16 0 one_socket))
  /\ (0 < 0 ->
      qemu_errno (snd (qc_handle_recv host_eof 0 4096 16 0 one_socket))
      = int32 (r_errno (host_eof (trace one_socket) (c_recv 3 16 0)))).
Proof.
  apply (recv_passes_on_empty_result host_eof 0 4096 16 0 3 0 0 one_socket
           (snd (qc_handle_recv host_eof 0 4096 16 0 one_socket))).
  - reflexivity.
  - reflexivity.
  - discriminate.
  - vm_compute. discriminate.
  - reflexivity.
  - unfold INT_MIN. lia.
  - vm_compute. reflexivity.
Defined.

(** The claim C4 as stated fails here: the host's [recv] returns 0 and the
    handler returns 0, which is not negative. *)
Lemma recv_end_of_stream_is_not_negative :
  new_events one_socket (snd (qc_handle_recv host_eof 0 4096 16 0 one_socket))
  = [Ev (c_recv 3 16 0) 0]
  /\ fst (qc_handle_recv host_eof 0 4096 16 0 one_socket) = 0
  /\ ~ fst (qc_handle_recv host_eof 0 4096 16 0 one_socket) < 0.
Proof.
  assert (Hr : fst (qc_handle_recv host_eof 0 4096 16 0 one_socket) = 0)
    by (vm_compute; reflexivity).
  split; [vm_compute; reflexivity|].
  split; [exact Hr|]. rewrite Hr. lia.
Qed.


Lemma allocation_is_lowest_first_witness :
  fst (creates host_ok 2 1 0 (Z.to_nat MAX_FD_COUNT) init)
  = Zrange 0 (Z.to_nat MAX_FD_COUNT)
  /\ fst (qc_handle_socket host_ok 2 1 0
            (snd (creates host_ok 2 1 0 (Z.to_nat MAX_FD_COUNT) init))) = -1.
Proof.
  destruct (allocation_is_lowest_first host_ok 2 1 0 init)
    as (_ & _ & _ & _ & Hco).
  { reflexivity. }
  destruct (Hco host_ok_cooperative) as [Hrun _].
  destruct (Hrun eq_refl) as (Hhandles & Hnext & _).
  split; [exact Hhandles|exact Hnext].
Defined.

(** ** The handlers evaluated *)

(** create, create, release 0, create: handles 0, 1 and 0 again. *)
Example slot_reuse_scenario :
  let '(h0, s1) := qc_handle_socket host_ok 2 1 0 init in
  let '(h1, s2) := qc_handle_socket host_ok 2 1 0 s1 in
  let '(h2, _) := qc_handle_socket host_ok 2 1 0 (release 0 s2) in
  (h0, h1, h2) = (0, 1, 0).
Proof. vm_compute. reflexivity. Qed.

(** create on the empty table when [fcntl] fails: -1 is returned, slot 0
    keeps descriptor 3, and the subscripts used are 0, 0, 0, -1, -1. *)
Example create_when_fcntl_fails :
  let out := qc_handle_socket host_no_fcntl 2 1 0 init in
  fst out = -1
  /\ slot (fds (snd out)) 0 = Some 3
  /\ rev (touched (snd out)) = [0; 0; 0; -1; -1]
  /\ rev (trace (snd out))
     = [Ev (c_socket 2 1 0) 3; Ev (c_fcntl_getfl 3) (-1);
        Ev (c_oob_load (-1)) 0; Ev (c_close 0) 0;
        Ev (c_oob_store (-1) (-1)) 0].
Proof. vm_compute. repeat split; reflexivity. Qed.

(** accept on a listening socket in slot 0 when [fcntl] fails: -1 is
    returned and slot 1 keeps the accepted descriptor. *)
Example accept_when_fcntl_fails :
  let out := qc_handle_accept host_no_fcntl 0 4096 8192 one_socket in
  fst out = -1
  /\ slot (fds (snd out)) 1 = Some 3
  /\ rev (touched (snd out)) = [0; 0; 1; 0; 1; 1; -1]
  /\ rev (trace (snd out))
     = [Ev (c_accept 3) 3; Ev (c_fcntl_getfl 3) (-1);
        Ev (c_oob_store (-1) (-1)) 0].
Proof. vm_compute. repeat split; reflexivity. Qed.

(** bind with [addrlen] 17 on a valid handle: 0 is returned, ENOMEM is in
    the error cell. *)
Example bind_with_oversize_addrlen :
  let out := qc_handle_bind host_ok 0 4096 17 one_socket in
  fst out = 0 /\ qemu_errno (snd out) = 12 /\ trace (snd out) = [].
Proof. vm_compute. repeat split; reflexivity. Qed.

(** create on a full table: ENOTSOCK (88), not ENOMEM (12). *)
Example create_on_full_table :
  let out := qc_handle_socket host_ok 2 1 0 crowded in
  fst out = -1 /\ qemu_errno (snd out) = 88 /\ trace (snd out) = [].
Proof. vm_compute. repeat split; reflexivity. Qed.

(** recv of 16 bytes when the host delivers 4: four bytes are copied. *)
Example recv_of_four_bytes :
  let out := qc_handle_recv host_ok 0 4096 16 0 one_socket in
  fst out = 4
  /\ trace (snd out)
     = [Ev (c_mem_write 4096 [x68; x6f; x73; x74] 4) 0; Ev (c_recv 3 16 0) 4].
Proof. vm_compute. repeat split; reflexivity. Qed.

(** ** The further properties at concrete inputs *)

Lemma host_no_fcntl_no_getfl : no_getfl host_no_fcntl.
Proof.
  intros h. split.
  - intros domain type protocol. cbn.
    pose proof (Z.mod_pos_bound (Z.of_nat (length h)) 1024 ltac:(lia)).
    rewrite int32_id by (unfold INT_MIN, INT_MAX; lia). lia.
  - intros fd. vm_compute. reflexivity.
Qed.

Lemma plain_handlers_keep_table_witness :
  fds (snd (qc_handle_listen host_ok 0 5 one_socket)) = fds one_socket
  /\ in_bounds
       (new_touched one_socket (snd (qc_handle_listen host_ok 0 5 one_socket))).
Proof.
  apply (plain_handlers_keep_table host_ok 0 5 0 0 0 one_socket
           (snd (qc_handle_listen host_ok 0 5 one_socket))).
  - reflexivity.
  - right. right. left. vm_compute. reflexivity.
Defined.

Lemma handler_writes_at_most_one_free_slot_witness :
  wf (snd (qc_handle_socket host_ok 2 1 0 one_socket))
  /\ (fds (snd (qc_handle_socket host_ok 2 1 0 one_socket)) = fds one_socket
      \/ exists i fd,
           slot (fds one_socket) i = Some FREE
           /\ fds (snd (qc_handle_socket host_ok 2 1 0 one_socket))
              = <[Z.to_nat i := fd]> (fds one_socket)).
Proof.
  apply (handler_writes_at_most_one_free_slot host_ok 1 one_socket
           (snd (qc_handle_socket host_ok 2 1 0 one_socket))).
  - reflexivity.
  - apply (run_socket host_ok one_socket 1 _ 2 1 0). vm_compute. reflexivity.
Defined.

Lemma owned_slots_survive_witness :
  slot (fds (snd (qc_handle_recv host_ok 0 4096 16 0
                    (snd (qc_handle_socket host_ok 2 1 0 one_socket))))) 0
  = Some 3.
Proof.
  destruct (owned_slots_survive host_ok one_socket
              (snd (qc_handle_recv host_ok 0 4096 16 0
                      (snd (qc_handle_socket host_ok 2 1 0 one_socket)))))
    as [_ Hkeep].
  - reflexivity.
  - apply (runs_step host_ok one_socket
             (snd (qc_handle_socket host_ok 2 1 0 one_socket)) _ 1).
    + apply (run_socket host_ok one_socket 1 _ 2 1 0). vm_compute. reflexivity.
    + apply (runs_step host_ok _
               (snd (qc_handle_recv host_ok 0 4096 16 0
                       (snd (qc_handle_socket host_ok 2 1 0 one_socket)))) _ 4).
      * apply (run_recv host_ok _ 4 _ 0 4096 16 0). vm_compute. reflexivity.
      * apply runs_done.
  - apply (Hkeep 0 3); [reflexivity|discriminate].
Defined.

Lemma listen_forwards_to_host_witness :
  0 = int32 (r_val (host_ok (trace one_socket) (c_listen 3 5)))
  /\ new_events one_socket (snd (qc_handle_listen host_ok 0 5 one_socket))
     = [Ev (c_listen 3 5) 0]
  /\ (0 < 0 ->
      qemu_errno (snd (qc_handle_listen host_ok 0 5 one_socket))
      = int32 (r_errno (host_ok (trace one_socket) (c_listen 3 5))))
  /\ (0 <= 0 ->
      qemu_errno (snd (qc_handle_listen host_ok 0 5 one_socket))
      = qemu_errno one_socket).
Proof.
  apply (listen_forwards_to_host host_ok 0 5 3 0 one_socket
           (snd (qc_handle_listen host_ok 0 5 one_socket))).
  - reflexivity.
  - reflexivity.
  - discriminate.
  - vm_compute. reflexivity.
Defined.

Lemma bind_and_connect_write_back_what_they_read_witness :
  exists ack ack2,
    new_events one_socket (snd (qc_handle_bind host_ok 0 4096 16 one_socket))
    = [Ev (c_mem_write 4096
             (r_data (host_ok (trace one_socket)
                        (c_mem_read 4096 sizeof_sockaddr_in)))
             sizeof_sockaddr_in) ack2;
       Ev (c_bind 3
             (r_data (host_ok (trace one_socket)
                        (c_mem_read 4096 sizeof_sockaddr_in)))
             16) 0;
       Ev (c_mem_read 4096 sizeof_sockaddr_in) ack].
Proof.
  destruct (bind_and_connect_write_back_what_they_read host_ok c_bind
              0 4096 16 3 0 one_socket
              (snd (qc_handle_bind host_ok 0 4096 16 one_socket)))
    as (ack & _ & _ & Hok).
  - reflexivity.
  - reflexivity.
  - discriminate.
  - vm_compute. discriminate.
  - left. split; [reflexivity|]. vm_compute. reflexivity.
  - assert (Hge : 0 <= 0) by lia.
    destruct (Hok Hge) as (_ & ack2 & Hev).
    exists ack, ack2. exact Hev.
Defined.

Lemma send_forwards_guest_bytes_witness :
  no_mem_write
    (new_events one_socket (snd (qc_handle_send host_ok 0 4096 4 0 one_socket)))
  = true.
Proof.
  destruct (send_forwards_guest_bytes host_ok 0 4096 4 0 4 one_socket
              (snd (qc_handle_send host_ok 0 4096 4 0 one_socket)))
    as [Hnw _].
  - reflexivity.
  - vm_compute. reflexivity.
  - exact Hnw.
Defined.

Lemma failed_socket_or_accept_leaves_table_witness :
  fds (snd (qc_handle_socket host_down 2 1 0 init)) = fds init.
Proof.
  destruct (failed_socket_or_accept_leaves_table host_down (c_socket 2 1 0)
              2 1 0 0 0 0 0 0 (-1) init
              (snd (qc_handle_socket host_down 2 1 0 init)))
    as (_ & _ & _ & _ & Hsame).
  - reflexivity.
  - split; [reflexivity|]. intros j Hj. lia.
  - left. split; [reflexivity|]. vm_compute. reflexivity.
  - vm_compute. reflexivity.
  - apply Hsame. vm_compute. reflexivity.
Defined.

Lemma crowded_valid : valid_fd crowded 0.
Proof. exists 7. split; [reflexivity|discriminate]. Defined.

Lemma accept_on_full_table_makes_no_call_witness :
  quiet (qc_handle_accept host_ok 0 4096 8192 crowded) (-1) ENOTSOCK crowded.
Proof.
  apply (accept_on_full_table_makes_no_call host_ok 0 4096 8192 crowded).
  - reflexivity.
  - exact crowded_valid.
  - apply full_forallb. vm_compute. reflexivity.
Defined.

Lemma set_socket_non_blocking_keeps_flags_witness :
  fds (snd (set_socket_non_blocking host_ok 0 one_socket)) = fds one_socket
  /\ qemu_errno (snd (set_socket_non_blocking host_ok 0 one_socket))
     = qemu_errno one_socket.
Proof.
  destruct (set_socket_non_blocking_keeps_flags host_ok 0 3 0 one_socket
              (snd (set_socket_non_blocking host_ok 0 one_socket)))
    as (Hf & Hq & _).
  - reflexivity.
  - vm_compute. reflexivity.
  - split; [exact Hf|exact Hq].
Defined.

Lemma accept_reports_peer_address_witness :
  exists lfd fd flags ok a1 a2,
    slot (fds one_socket) 0 = Some lfd
    /\ new_events one_socket
         (snd (qc_handle_accept host_ok 0 4096 8192 one_socket))
       = [Ev (c_mem_write 8192
                (le_bytes (Z.to_nat sizeof_socklen_t)
                   (r_len (host_ok (trace one_socket) (c_accept lfd))))
                sizeof_socklen_t) a2;
          Ev (c_mem_write 4096
                (r_data (host_ok (trace one_socket) (c_accept lfd)))
                sizeof_sockaddr_in) a1;
          Ev (c_fcntl_setfl fd (Z.lor flags O_NONBLOCK)) ok;
          Ev (c_fcntl_getfl fd) flags;
          Ev (c_accept lfd) fd].
Proof.
  destruct (accept_reports_peer_address host_ok 0 4096 8192 1 one_socket
              (snd (qc_handle_accept host_ok 0 4096 8192 one_socket)))
    as [Hok _].
  - reflexivity.
  - vm_compute. reflexivity.
  - apply Hok. lia.
Defined.

Lemma returned_handle_reaches_the_host_witness :
  exists fd,
    slot (fds (snd (qc_handle_socket host_ok 2 1 0 init))) 0 = Some fd
    /\ 0 <= fd
    /\ valid_fd (snd (qc_handle_socket host_ok 2 1 0 init)) 0
    /\ new_events (snd (qc_handle_socket host_ok 2 1 0 init))
         (snd (qc_handle_listen host_ok 0 5
                 (snd (qc_handle_socket host_ok 2 1 0 init))))
       = [Ev (c_listen fd 5) 0]
    /\ 0 = int32 (r_val (host_ok (trace (snd (qc_handle_socket host_ok 2 1 0 init)))
                           (c_listen fd 5))).
Proof.
  apply (returned_handle_reaches_the_host host_ok 2 1 0 0 0 0 5 0 0 init
           (snd (qc_handle_socket host_ok 2 1 0 init))
           (snd (qc_handle_listen host_ok 0 5
                   (snd (qc_handle_socket host_ok 2 1 0 init))))).
  - reflexivity.
  - left. vm_compute. reflexivity.
  - lia.
  - vm_compute. reflexivity.
Defined.

Lemma failed_setups_fill_the_table_witness :
  fst (creates host_no_fcntl 2 1 0 (Z.to_nat MAX_FD_COUNT) init)
  = replicate (Z.to_nat MAX_FD_COUNT) (-1)
  /\ full (fds (snd (creates host_no_fcntl 2 1 0 (Z.to_nat MAX_FD_COUNT) init))).
Proof.
  destruct (failed_setups_fill_the_table host_no_fcntl 2 1 0 init)
    as (Hall & Hfull & _).
  - exact host_no_fcntl_no_getfl.
  - reflexivity.
  - reflexivity.
  - split; [exact Hall|exact Hfull].
Defined.

Lemma create_and_listen_leave_guest_memory_witness :
  no_mem_copy (new_events init (snd (qc_handle_socket host_ok 2 1 0 init)))
  = true.
Proof.
  apply (create_and_listen_leave_guest_memory host_ok 2 1 0 0 0 0 init
           (snd (qc_handle_socket host_ok 2 1 0 init))).
  - reflexivity.
  - left. vm_compute. reflexivity.
Defined.

Lemma find_free_socket_scans_in_order_witness :
  rev (new_touched one_socket (snd (find_free_socket host_ok one_socket)))
  = Zrange 0 (Z.to_nat (1 + 1))
  \/ rev (new_touched one_socket (snd (find_free_socket host_ok one_socket)))
     = Zrange 0 (Z.to_nat MAX_FD_COUNT).
Proof.
  destruct (find_free_socket_scans_in_order host_ok 1 one_socket
              (snd (find_free_socket host_ok one_socket)))
    as (_ & _ & _ & _ & [(_ & _ & _ & Hscan)|(_ & _ & _ & Hscan)]).
  - reflexivity.
  - vm_compute. reflexivity.
  - left. exact Hscan.
  - right. exact Hscan.
Defined.
